(** * Project Echo: weather-event audio training pipeline

    A shallow embedding of
    [src/Prototypes/engine/WeatherDetection/optimized_weather_training_pipeline.ipynb]:
    the audio normaliser [load_and_pad_audio], the corpus loader
    [load_audio_files], the label encoding and tensor preparation cell, the
    train/test split and the callback-driven training loop.

    Conventions.
    - Python integers are [Z]; [//] is [Z.div] (both round towards minus
      infinity), list and array lengths are [nat] and are injected with
      [Z.of_nat] where the code mixes them with integers.
    - Amplitudes, spectrogram energies and pixels are floating-point numbers
      that the pipeline only moves around; they are an abstract type with a
      distinguished zero (the pad value of [np.pad(..., "constant")]).
    - A Python exception is a [Raise] result; the [try/except] of
      [load_and_pad_audio] turns every exception into [None].
    - Calls into librosa, TensorFlow, scikit-learn and Keras are either
      section variables (decoding, spectrogram extraction, bilinear resize,
      the random permutation, the classifier) or, where the claims depend on
      what the library does (slicing, [np.pad], [LabelEncoder],
      [to_categorical], the size arithmetic of [train_test_split], the
      callbacks of [model.fit]), definitions that follow the library's
      documented behaviour. *)

From Stdlib Require Import String.
From Stdlib Require Import ZArith List Bool Arith Lia.
From Stdlib Require Import QArith Qround Qminmax Permutation Sorted OrdersEx.
Import ListNotations.

Set Implicit Arguments.
Open Scope Z_scope.

(** ** Python results *)

Inductive exn : Type :=
| ValueError
| NotADirectoryError
| AxisError
| InvalidArgumentError.

Inductive result (A : Type) : Type :=
| Ok (a : A)
| Raise (e : exn).

Arguments Ok {A} a.
Arguments Raise {A} e.

Definition bind {A B : Type} (r : result A) (k : A -> result B) : result B :=
  match r with
  | Ok a => k a
  | Raise e => Raise e
  end.

Notation "x <- r ;; k" := (bind r (fun x => k))
  (at level 61, r at next level, right associativity).

(** ** Python sequences *)

Module Py.

(** Index normalisation of a slice bound: a negative bound counts from the
    end, and every bound is clamped into [0, len]. *)
Definition clamp_index (len i : Z) : Z :=
  if i <? 0 then Z.max 0 (i + len) else Z.min i len.

(** [l[start:stop]] with unit step. *)
Definition slice {A : Type} (l : list A) (start stop : Z) : list A :=
  let len := Z.of_nat (length l) in
  let a := clamp_index len start in
  let b := clamp_index len stop in
  firstn (Z.to_nat (b - a)) (skipn (Z.to_nat a) l).

Lemma slice_in_range {A : Type} (l : list A) (start n : Z) :
  0 <= start -> 0 <= n -> start + n <= Z.of_nat (length l) ->
  slice l start (start + n) = firstn (Z.to_nat n) (skipn (Z.to_nat start) l).
Proof.
  intros Hs Hn Hle. unfold slice, clamp_index.
  destruct (Z.ltb_spec start 0); [lia|].
  destruct (Z.ltb_spec (start + n) 0); [lia|].
  rewrite !Z.min_l by lia. do 2 f_equal. lia.
Qed.

Lemma slice_nil {A : Type} (start stop : Z) : slice (@nil A) start stop = [].
Proof. unfold slice. now rewrite skipn_nil, firstn_nil. Qed.

End Py.

(** ** AudioNormalizer: [load_and_pad_audio] *)

Section AudioNormalizer.

(** Amplitude samples and the zero amplitude. *)
Variable sample : Type.
Variable zero : sample.

(** Audio files and [librosa.load(file_path, sr=sr)]: the decoded and
    resampled mono waveform, or [None] when the call raises. *)
Variable file : Type.
Variable librosa_load : file -> Z -> option (list sample).

(** [np.pad(audio, (before, after), "constant")]: a negative width raises
    [ValueError]. *)
Definition np_pad (audio : list sample) (before after : Z) : result (list sample) :=
  if (before <? 0) || (after <? 0) then Raise ValueError
  else Ok (repeat zero (Z.to_nat before) ++ audio ++ repeat zero (Z.to_nat after)).

(** The body of the [try] block after the load: pad or trim [audio] to
    [sr * duration] samples. *)
Definition pad_or_trim (audio : list sample) (duration sr : Z) : result (list sample) :=
  let required_samples := sr * duration in
  let audio_length := Z.of_nat (length audio) in
  if audio_length <? required_samples then
    let pad_length := (required_samples - audio_length) / 2 in
    np_pad audio pad_length (required_samples - audio_length - pad_length)
  else if audio_length >? required_samples then
    let start := (audio_length - required_samples) / 2 in
    Ok (Py.slice audio start (start + required_samples))
  else Ok audio.

(** [load_and_pad_audio(file_path, duration, sr)]: [Some (audio, sr)], or
    [None] for the [(None, None)] of the [except] branch. *)
Definition load_and_pad_audio (file_path : file) (duration sr : Z)
  : option (list sample * Z) :=
  match librosa_load file_path sr with
  | None => None
  | Some audio =>
      match pad_or_trim audio duration sr with
      | Ok audio' => Some (audio', sr)
      | Raise _ => None
      end
  end.

(** *** Helper facts *)

Lemma pad_or_trim_short (audio : list sample) (duration sr : Z) :
  Z.of_nat (length audio) < sr * duration ->
  pad_or_trim audio duration sr =
    Ok (repeat zero (Z.to_nat ((sr * duration - Z.of_nat (length audio)) / 2))
        ++ audio
        ++ repeat zero (Z.to_nat (sr * duration - Z.of_nat (length audio)
                                  - (sr * duration - Z.of_nat (length audio)) / 2))).
Proof.
  intros Hlt. unfold pad_or_trim, np_pad.
  destruct (Z.ltb_spec (Z.of_nat (length audio)) (sr * duration)); [|lia].
  set (gap := sr * duration - Z.of_nat (length audio)).
  assert (0 <= gap / 2 <= gap) by (subst gap; split;
    [apply Z.div_pos; lia | apply Z.div_le_upper_bound; lia]).
  destruct (Z.ltb_spec (gap / 2) 0); [lia|].
  destruct (Z.ltb_spec (gap - gap / 2) 0); [lia|]. reflexivity.
Qed.

Lemma pad_or_trim_long (audio : list sample) (duration sr : Z) :
  sr * duration < Z.of_nat (length audio) ->
  pad_or_trim audio duration sr =
    Ok (Py.slice audio ((Z.of_nat (length audio) - sr * duration) / 2)
          ((Z.of_nat (length audio) - sr * duration) / 2 + sr * duration)).
Proof.
  intros Hlt. unfold pad_or_trim.
  destruct (Z.ltb_spec (Z.of_nat (length audio)) (sr * duration)); [lia|].
  destruct (Z.gtb_spec (Z.of_nat (length audio)) (sr * duration)); [|lia].
  reflexivity.
Qed.

Lemma pad_or_trim_exact (audio : list sample) (duration sr : Z) :
  Z.of_nat (length audio) = sr * duration ->
  pad_or_trim audio duration sr = Ok audio.
Proof.
  intros Heq. unfold pad_or_trim.
  destruct (Z.ltb_spec (Z.of_nat (length audio)) (sr * duration)); [lia|].
  destruct (Z.gtb_spec (Z.of_nat (length audio)) (sr * duration)); [lia|].
  reflexivity.
Qed.

(** A trim towards a negative sample count is the empty slice. *)
Lemma trim_negative_empty (audio : list sample) (req : Z) :
  req < 0 ->
  Py.slice audio ((Z.of_nat (length audio) - req) / 2)
    ((Z.of_nat (length audio) - req) / 2 + req) = [].
Proof.
  intros Hneg. unfold Py.slice, Py.clamp_index.
  set (n := Z.of_nat (length audio)).
  assert (Hn : 0 <= n) by (subst n; lia).
  set (s := (n - req) / 2).
  assert (Hs : 2 * s <= n - req < 2 * s + 2)
    by (subst s; pose proof (Z.div_mod (n - req) 2 ltac:(lia));
        pose proof (Z.mod_pos_bound (n - req) 2 ltac:(lia)); lia).
  replace (Z.to_nat _) with 0%nat; [reflexivity|].
  destruct (Z.ltb_spec s 0); destruct (Z.ltb_spec (s + req) 0); lia.
Qed.

Lemma pad_or_trim_total (audio : list sample) (duration sr : Z) :
  exists out, pad_or_trim audio duration sr = Ok out.
Proof.
  destruct (Z.lt_trichotomy (Z.of_nat (length audio)) (sr * duration)) as [H|[H|H]].
  - rewrite pad_or_trim_short by assumption. eauto.
  - rewrite pad_or_trim_exact by assumption. eauto.
  - rewrite pad_or_trim_long by assumption. eauto.
Qed.

Lemma pad_or_trim_length (audio out : list sample) (duration sr : Z) :
  0 <= sr * duration ->
  pad_or_trim audio duration sr = Ok out ->
  Z.of_nat (length out) = sr * duration.
Proof.
  intros Hreq.
  destruct (Z.lt_trichotomy (Z.of_nat (length audio)) (sr * duration)) as [H|[H|H]].
  - rewrite pad_or_trim_short by assumption. intros [= <-].
    rewrite !length_app, !repeat_length.
    assert (0 <= (sr * duration - Z.of_nat (length audio)) / 2
            <= sr * duration - Z.of_nat (length audio))
      by (split; [apply Z.div_pos; lia | apply Z.div_le_upper_bound; lia]).
    lia.
  - rewrite pad_or_trim_exact by assumption. now intros [= <-].
  - rewrite pad_or_trim_long by assumption. intros [= <-].
    assert (0 <= (Z.of_nat (length audio) - sr * duration) / 2
            <= Z.of_nat (length audio) - sr * duration)
      by (split; [apply Z.div_pos; lia | apply Z.div_le_upper_bound; lia]).
    rewrite Py.slice_in_range by lia.
    rewrite length_firstn, length_skipn. lia.
Qed.

Lemma pad_or_trim_idempotent (audio out : list sample) (duration sr : Z) :
  pad_or_trim audio duration sr = Ok out ->
  pad_or_trim out duration sr = Ok out.
Proof.
  intros Hout. destruct (Z.le_gt_cases 0 (sr * duration)) as [Hreq|Hneg].
  - apply pad_or_trim_exact. eapply pad_or_trim_length; eassumption.
  - rewrite pad_or_trim_long in Hout by lia. injection Hout as <-.
    rewrite trim_negative_empty by lia.
    rewrite pad_or_trim_long by (simpl; lia).
    now rewrite Py.slice_nil.
Qed.

(** *** Claims about the normaliser *)

(** C4. Whenever the file decodes, normalisation succeeds and the waveform
    it returns has exactly [duration * sr] samples, whatever the length of
    the decoded input; durations and sample rates are the non-negative
    quantities whose product is a sample count. *)
Theorem normalized_length_exact (file_path : file) (duration sr : Z)
    (audio : list sample) :
  0 <= sr * duration ->
  librosa_load file_path sr = Some audio ->
  exists out,
    load_and_pad_audio file_path duration sr = Some (out, sr) /\
    Z.of_nat (length out) = duration * sr.
Proof.
  intros Hreq Hload. unfold load_and_pad_audio. rewrite Hload.
  destruct (pad_or_trim_total audio duration sr) as [out Hout].
  rewrite Hout. exists out. split; [reflexivity|].
  rewrite Z.mul_comm. eapply pad_or_trim_length; eassumption.
Qed.

(** C9. A decoded waveform that already has the target length is returned
    unchanged, and normalising the result of a normalisation again (loading
    it back from any file that decodes to it) returns that same result. *)
Theorem normalize_idempotent (file_path : file) (duration sr : Z)
    (audio : list sample) :
  librosa_load file_path sr = Some audio ->
  (Z.of_nat (length audio) = duration * sr ->
   load_and_pad_audio file_path duration sr = Some (audio, sr)) /\
  (forall (out : list sample) (sr' : Z) (again : file),
      load_and_pad_audio file_path duration sr = Some (out, sr') ->
      librosa_load again sr' = Some out ->
      load_and_pad_audio again duration sr' = Some (out, sr')).
Proof.
  intros Hload. unfold load_and_pad_audio. rewrite Hload. split.
  - intros Hlen. rewrite pad_or_trim_exact by lia. reflexivity.
  - intros out sr' again.
    destruct (pad_or_trim audio duration sr) as [o|] eqn:Hout; [|discriminate].
    intros [= <- <-] Hagain. rewrite Hagain.
    now rewrite (pad_or_trim_idempotent _ _ _ Hout).
Qed.

(** C10. Frame property of the normaliser.  A waveform shorter than the
    target is copied unchanged to the indices
    [pad_left .. pad_left + len - 1] of the output, every other output
    entry is the zero amplitude, [pad_left = (required - len) // 2] and the
    right pad exceeds the left one by at most one sample.  A waveform longer
    than the target yields the Python slice
    [audio[start : start + required]] with [start = (len - required) // 2],
    which for a sample count [required >= 0] is the [required] consecutive
    input samples beginning at [start]. *)
Theorem normalize_frame (audio : list sample) (duration sr : Z) :
  let required := sr * duration in
  let len := Z.of_nat (length audio) in
  (len < required ->
   let pad_left := (required - len) / 2 in
   let pad_right := required - len - pad_left in
   exists out,
     pad_or_trim audio duration sr = Ok out /\
     Z.of_nat (length out) = required /\
     0 <= pad_left /\ 0 <= pad_right - pad_left <= 1 /\
     (forall i : nat, (i < length audio)%nat ->
        nth (Z.to_nat pad_left + i) out zero = nth i audio zero) /\
     (forall i : nat, (i < Z.to_nat pad_left)%nat -> nth i out zero = zero) /\
     (forall i : nat, (Z.to_nat pad_left + length audio <= i)%nat ->
        nth i out zero = zero)) /\
  (required < len ->
   let start := (len - required) / 2 in
   exists out,
     pad_or_trim audio duration sr = Ok out /\
     out = Py.slice audio start (start + required) /\
     (0 <= required ->
      Z.of_nat (length out) = required /\
      0 <= start /\ start + required <= len /\
      forall i : nat, (i < Z.to_nat required)%nat ->
        nth i out zero = nth (Z.to_nat start + i) audio zero)).
Proof.
  intros required len. split.
  - intros Hlt pad_left pad_right.
    rewrite pad_or_trim_short by assumption.
    fold required len pad_left. fold pad_right.
    assert (Hdiv : 2 * pad_left <= required - len < 2 * pad_left + 2)
      by (subst pad_left; pose proof (Z.div_mod (required - len) 2 ltac:(lia));
          pose proof (Z.mod_pos_bound (required - len) 2 ltac:(lia)); lia).
    eexists. split; [reflexivity|].
    repeat split; try (subst pad_right; lia).
    + rewrite !length_app, !repeat_length. subst pad_right len. lia.
    + intros i Hi. rewrite app_nth2 by (rewrite repeat_length; lia).
      rewrite repeat_length. replace (_ + i - _)%nat with i by lia.
      now rewrite app_nth1 by lia.
    + intros i Hi. rewrite app_nth1 by (rewrite repeat_length; lia).
      apply nth_repeat.
    + intros i Hi. rewrite app_nth2 by (rewrite repeat_length; lia).
      rewrite repeat_length, app_nth2 by lia. apply nth_repeat.
  - intros Hgt start. rewrite pad_or_trim_long by assumption.
    fold required len start. eexists. split; [reflexivity|].
    split; [reflexivity|]. intros Hreq.
    assert (Hdiv : 2 * start <= len - required < 2 * start + 2)
      by (subst start; pose proof (Z.div_mod (len - required) 2 ltac:(lia));
          pose proof (Z.mod_pos_bound (len - required) 2 ltac:(lia)); lia).
    rewrite Py.slice_in_range by (fold len; lia).
    repeat split; try lia.
    + rewrite length_firstn, length_skipn. fold len. lia.
    + intros i Hi. rewrite nth_firstn.
      destruct (Nat.ltb_spec i (Z.to_nat required)); [|lia].
      now rewrite nth_skipn.
Qed.

(** *** Further properties of the normaliser *)


(** X2. A target of zero or fewer samples ([sr * duration <= 0]) is not
    refused: every decoded waveform is cut down to the empty waveform. *)
Theorem nonpositive_target_gives_empty_waveform (file_path : file) (duration sr : Z)
    (audio : list sample) :
  sr * duration <= 0 ->
  librosa_load file_path sr = Some audio ->
  load_and_pad_audio file_path duration sr = Some ([], sr).
Proof.
  intros Hreq Hload. unfold load_and_pad_audio. rewrite Hload.
  destruct (Z.lt_trichotomy (Z.of_nat (length audio)) (sr * duration)) as [H|[H|H]].
  - lia.
  - rewrite pad_or_trim_exact by assumption.
    destruct audio; [reflexivity|simpl in H; lia].
  - rewrite pad_or_trim_long by assumption.
    destruct (Z.eq_dec (sr * duration) 0) as [Hz|Hnz].
    + rewrite Hz, Z.add_0_r, Z.sub_0_r.
      set (start := Z.of_nat (length audio) / 2).
      assert (0 <= start <= Z.of_nat (length audio))
        by (subst start; split; [apply Z.div_pos; lia | apply Z.div_le_upper_bound; lia]).
      replace start with (start + 0) at 2 by lia.
      rewrite Py.slice_in_range by lia. reflexivity.
    + rewrite trim_negative_empty by lia. reflexivity.
Qed.

(** X3. Trimming undoes padding: a waveform that was padded up to a longer
    target and is then trimmed to its original length comes back unchanged
    (the trim starts at [pad_left]). *)
Theorem trim_undoes_pad (audio : list sample) (duration sr duration' sr' : Z) :
  Z.of_nat (length audio) < sr * duration ->
  sr' * duration' = Z.of_nat (length audio) ->
  exists padded,
    pad_or_trim audio duration sr = Ok padded /\
    pad_or_trim padded duration' sr' = Ok audio.
Proof.
  intros Hshort Hback. rewrite pad_or_trim_short by assumption.
  set (len := Z.of_nat (length audio)) in *.
  set (pad_left := (sr * duration - len) / 2).
  set (pad_right := sr * duration - len - pad_left).
  assert (Hdiv : 0 <= pad_left /\ 0 <= pad_right)
    by (subst pad_right pad_left;
        pose proof (Z.div_mod (sr * duration - len) 2 ltac:(lia));
        pose proof (Z.mod_pos_bound (sr * duration - len) 2 ltac:(lia)); lia).
  eexists. split; [reflexivity|].
  set (padded := repeat zero (Z.to_nat pad_left) ++ audio ++ repeat zero (Z.to_nat pad_right)).
  assert (Hlen : Z.of_nat (length padded) = sr * duration).
  { subst padded. rewrite !length_app, !repeat_length. subst pad_right. fold len. lia. }
  rewrite pad_or_trim_long by lia. rewrite Hlen, Hback. fold pad_left.
  rewrite Py.slice_in_range by lia. f_equal. subst padded.
  rewrite skipn_app, repeat_length, Nat.sub_diag.
  rewrite skipn_all2 by (rewrite repeat_length; lia). simpl.
  subst len. rewrite Nat2Z.id, firstn_app, Nat.sub_diag, firstn_all. simpl.
  now rewrite app_nil_r.
Qed.

(** X4. What a trim discards: the waveform is [head ++ out ++ tail] with
    [out] the returned [required] samples, [head] the
    [(len - required) // 2] samples dropped at the front, and [tail] as long
    as [head] or one sample longer. *)
Theorem trim_discards_both_ends (audio : list sample) (duration sr : Z) :
  0 <= sr * duration < Z.of_nat (length audio) ->
  exists head out tail,
    pad_or_trim audio duration sr = Ok out /\
    audio = head ++ out ++ tail /\
    Z.of_nat (length out) = sr * duration /\
    Z.of_nat (length head) = (Z.of_nat (length audio) - sr * duration) / 2 /\
    (length head <= length tail <= S (length head))%nat.
Proof.
  intros [Hreq Hlong]. rewrite pad_or_trim_long by assumption.
  set (len := Z.of_nat (length audio)) in *.
  set (start := (len - sr * duration) / 2).
  assert (Hdiv : 2 * start <= len - sr * duration < 2 * start + 2)
    by (subst start; pose proof (Z.div_mod (len - sr * duration) 2 ltac:(lia));
        pose proof (Z.mod_pos_bound (len - sr * duration) 2 ltac:(lia)); lia).
  rewrite Py.slice_in_range by (fold len; lia).
  exists (firstn (Z.to_nat start) audio),
         (firstn (Z.to_nat (sr * duration)) (skipn (Z.to_nat start) audio)),
         (skipn (Z.to_nat (sr * duration)) (skipn (Z.to_nat start) audio)).
  split; [reflexivity|]. split; [now rewrite !firstn_skipn|].
  rewrite !length_firstn, !length_skipn. subst len. repeat split; lia.
Qed.

End AudioNormalizer.

(** ** The configuration dictionary [SC] *)

Module SC.
Definition AUDIO_CLIP_DURATION : Z := 2.
Definition AUDIO_NFFT : Z := 2048.
Definition AUDIO_STRIDE : Z := 200.
Definition AUDIO_SAMPLE_RATE : Z := 16000.
Definition AUDIO_MELS : Z := 260.
Definition AUDIO_FMIN : Z := 20.
Definition AUDIO_FMAX : Z := 13000.
Definition AUDIO_TOP_DB : Z := 80.
End SC.

(** ** CorpusLoader: [load_audio_files] *)

Section CorpusLoader.

Variable sample : Type.
Variable zero : sample.
Variable file : Type.
Variable librosa_load : file -> Z -> option (list sample).

(** [librosa.feature.melspectrogram(y, sr, n_fft, hop_length, n_mels, fmin,
    fmax)] at the parameters of [SC], and [librosa.power_to_db(_, top_db)]. *)
Variable spectrogram : Type.
Variable melspectrogram : list sample -> Z -> spectrogram.
Variable power_to_db : spectrogram -> spectrogram.

(** A directory tree.  A directory is its listing, in the order in which
    [os.listdir] enumerates it; the names of a listing are distinct. *)
#[warnings="-register-all"]
Inductive entry : Type :=
| RegularFile (f : file)
| Directory (listing : list (string * entry)).

Definition isdir (e : entry) : bool :=
  match e with
  | Directory _ => true
  | RegularFile _ => false
  end.

Definition listdir (e : entry) : result (list (string * entry)) :=
  match e with
  | Directory listing => Ok listing
  | RegularFile _ => Raise NotADirectoryError
  end.

(** [load_and_pad_audio] on an entry of a class directory: decoding a
    sub-directory raises inside the [try] block. *)
Definition load_entry (e : entry) : option (list sample * Z) :=
  match e with
  | RegularFile f =>
      load_and_pad_audio zero librosa_load f
        SC.AUDIO_CLIP_DURATION SC.AUDIO_SAMPLE_RATE
  | Directory _ => None
  end.

(** One iteration of the inner loop on the accumulators [(audios, labels)]:
    [continue] on a failed load, two [append]s otherwise. *)
Definition file_iteration (label : string)
    (acc : list spectrogram * list string) (f : string * entry)
  : list spectrogram * list string :=
  match load_entry (snd f) with
  | None => acc
  | Some (audio, sr) =>
      let mel_spectrogram := melspectrogram audio sr in
      let log_mel_spectrogram := power_to_db mel_spectrogram in
      (fst acc ++ [log_mel_spectrogram], snd acc ++ [label])
  end.

(** One iteration of the outer loop. *)
Definition class_iteration (acc : list spectrogram * list string) (c : string * entry)
  : list spectrogram * list string :=
  match snd c with
  | Directory files => fold_left (file_iteration (fst c)) files acc
  | RegularFile _ => acc
  end.

(** [load_audio_files(path)], returning [(audios, labels, class_labels)].
    The loops run over the entries that the listing pairs with each class
    label, which are the entries that [os.path.join(path, label)] names. *)
Definition load_audio_files (path : entry)
  : result (list spectrogram * list string * list string) :=
  listing <- listdir path ;;
  let classes := filter (fun d => isdir (snd d)) listing in
  let class_labels := map fst classes in
  let acc := fold_left class_iteration classes ([], []) in
  Ok (fst acc, snd acc, class_labels).

(** What a file and a class directory contribute, as lists of samples. *)
Definition process_file (label : string) (e : entry) : list (spectrogram * string) :=
  match load_entry e with
  | None => []
  | Some (audio, sr) => [(power_to_db (melspectrogram audio sr), label)]
  end.

Definition process_class (c : string * entry) : list (spectrogram * string) :=
  match snd c with
  | Directory files => flat_map (fun f => process_file (fst c) (snd f)) files
  | RegularFile _ => []
  end.

(** The files of a corpus, each with the label of its class directory, in
    the order in which the two loops visit them. *)
Definition class_files (c : string * entry) : list (string * entry) :=
  match snd c with
  | Directory files => map (fun f => (fst c, snd f)) files
  | RegularFile _ => []
  end.

Definition corpus_files (listing : list (string * entry)) : list (string * entry) :=
  flat_map class_files (filter (fun d => isdir (snd d)) listing).

Definition decodes (f : string * entry) : bool :=
  match load_entry (snd f) with
  | Some _ => true
  | None => false
  end.

(** *** Helper facts *)

Lemma flat_map_map {A B C : Type} (g : A -> B) (h : B -> list C) (l : list A) :
  flat_map h (map g l) = flat_map (fun a => h (g a)) l.
Proof. induction l as [|a l IH]; simpl; [reflexivity|]. now rewrite IH. Qed.

Lemma flat_map_flat_map {A B C : Type} (g : A -> list B) (h : B -> list C) (l : list A) :
  flat_map h (flat_map g l) = flat_map (fun a => flat_map h (g a)) l.
Proof.
  induction l as [|a l IH]; simpl; [reflexivity|].
  now rewrite flat_map_app, IH.
Qed.

Lemma file_loop_appends (label : string) (files : list (string * entry)) :
  forall acc,
    fold_left (file_iteration label) files acc
    = (fst acc ++ map fst (flat_map (fun f => process_file label (snd f)) files),
       snd acc ++ map snd (flat_map (fun f => process_file label (snd f)) files)).
Proof.
  induction files as [|f files IH]; intros [audios labels]; simpl.
  - now rewrite !app_nil_r.
  - rewrite IH. unfold file_iteration, process_file.
    destruct (load_entry (snd f)) as [[audio sr]|]; simpl; [|reflexivity].
    now rewrite <- !app_assoc.
Qed.

Lemma class_loop_appends (classes : list (string * entry)) :
  forall acc,
    fold_left class_iteration classes acc
    = (fst acc ++ map fst (flat_map process_class classes),
       snd acc ++ map snd (flat_map process_class classes)).
Proof.
  induction classes as [|c classes IH]; intros [audios labels]; simpl.
  - now rewrite !app_nil_r.
  - rewrite IH. unfold class_iteration, process_class.
    destruct (snd c) as [f|files]; simpl; [reflexivity|].
    rewrite file_loop_appends. simpl. now rewrite !map_app, !app_assoc.
Qed.

(** The two loops, read as a comprehension. *)
Lemma load_audio_files_directory (listing : list (string * entry)) :
  load_audio_files (Directory listing)
  = Ok (map fst (flat_map process_class (filter (fun d => isdir (snd d)) listing)),
        map snd (flat_map process_class (filter (fun d => isdir (snd d)) listing)),
        map fst (filter (fun d => isdir (snd d)) listing)).
Proof.
  unfold load_audio_files. simpl. now rewrite class_loop_appends.
Qed.

Lemma process_class_files (c : string * entry) :
  process_class c = flat_map (fun f => process_file (fst f) (snd f)) (class_files c).
Proof.
  unfold process_class, class_files. destruct (snd c); [reflexivity|].
  now rewrite flat_map_map.
Qed.

Lemma samples_of_corpus (listing : list (string * entry)) :
  flat_map process_class (filter (fun d => isdir (snd d)) listing)
  = flat_map (fun f => process_file (fst f) (snd f)) (corpus_files listing).
Proof.
  unfold corpus_files. rewrite flat_map_flat_map.
  apply flat_map_ext. intros c. apply process_class_files.
Qed.

Lemma decoded_files_labels (l : list (string * entry)) :
  forallb decodes l = true ->
  map snd (flat_map (fun f => process_file (fst f) (snd f)) l) = map fst l.
Proof.
  induction l as [|f l IH]; simpl; [reflexivity|].
  intros [Hf Hl]%andb_prop. rewrite map_app, IH by assumption.
  unfold decodes in Hf. unfold process_file.
  destruct (load_entry (snd f)) as [[audio sr]|]; [reflexivity|discriminate].
Qed.

Lemma failed_file_skipped (f : string * entry) :
  decodes f = false -> process_file (fst f) (snd f) = [].
Proof.
  unfold decodes, process_file.
  destruct (load_entry (snd f)) as [[audio sr]|]; [discriminate|reflexivity].
Qed.

Lemma sample_labels_in_vocabulary (listing : list (string * entry)) (label : string) :
  In label (map snd (flat_map process_class (filter (fun d => isdir (snd d)) listing))) ->
  In label (map fst (filter (fun d => isdir (snd d)) listing)).
Proof.
  generalize (filter (fun d => isdir (snd d)) listing). intros classes.
  rewrite in_map_iff. intros [[s l] [Hl Hin]]. simpl in Hl. subst l.
  apply in_flat_map in Hin. destruct Hin as [c [Hc Hs]].
  apply in_map_iff. exists c. split; [|assumption].
  unfold process_class in Hs. destruct (snd c) as [|files]; [contradiction|].
  apply in_flat_map in Hs. destruct Hs as [f [_ Hs]].
  unfold process_file in Hs.
  destruct (load_entry (snd f)) as [[audio sr]|]; [|contradiction].
  destruct Hs as [[= _ ->]|[]]. reflexivity.
Qed.

(** *** Claims about the corpus loader *)

(** C3 (as the code has it). A root directory without class
    sub-directories makes [load_audio_files] return normally, with no
    samples, no labels and an empty vocabulary; no failure is raised. *)
Theorem empty_corpus_returns_normally (listing : list (string * entry)) :
  forallb (fun d => negb (isdir (snd d))) listing = true ->
  load_audio_files (Directory listing) = Ok ([], [], []).
Proof.
  intros Hfiles. rewrite load_audio_files_directory.
  replace (filter (fun d => isdir (snd d)) listing) with (@nil (string * entry));
    [reflexivity|].
  induction listing as [|d listing IH]; [reflexivity|].
  simpl in Hfiles. apply andb_prop in Hfiles as [Hd Hl]. simpl.
  destruct (isdir (snd d)); [discriminate|]. now apply IH.
Qed.

(** C7. When exactly one of the [N] files under the class directories
    fails to load or decode, [load_audio_files] returns normally with
    [N - 1] samples: the failing file is skipped, every other file
    contributes one sample carrying the label of its class directory, in
    visiting order. *)
Theorem one_corrupt_file_skipped (listing : list (string * entry))
    (before after : list (string * entry)) (bad : string * entry) :
  corpus_files listing = before ++ bad :: after ->
  decodes bad = false ->
  forallb decodes before = true ->
  forallb decodes after = true ->
  exists audios labels class_labels,
    load_audio_files (Directory listing) = Ok (audios, labels, class_labels) /\
    length audios = (length (corpus_files listing) - 1)%nat /\
    length labels = (length (corpus_files listing) - 1)%nat /\
    labels = map fst (before ++ after).
Proof.
  intros Hfiles Hbad Hbefore Hafter.
  rewrite load_audio_files_directory. do 3 eexists. split; [reflexivity|].
  rewrite samples_of_corpus, Hfiles.
  rewrite flat_map_app. simpl. rewrite (failed_file_skipped _ Hbad). simpl.
  rewrite <- flat_map_app.
  assert (Hall : forallb decodes (before ++ after) = true)
    by (rewrite forallb_app, Hbefore, Hafter; reflexivity).
  pose proof (decoded_files_labels _ Hall) as Hlabels.
  assert (Hlen : length (flat_map (fun f => process_file (fst f) (snd f)) (before ++ after))
                 = length (before ++ after)).
  { rewrite <- (length_map snd), Hlabels. apply length_map. }
  rewrite !length_map, Hlen.
  repeat split; try assumption; rewrite !length_app; simpl; lia.
Qed.

(** *** Further properties of the corpus loader *)

Lemma contributed_labels (l : list (string * entry)) :
  map snd (flat_map (fun f => process_file (fst f) (snd f)) l)
  = map fst (filter decodes l).
Proof.
  induction l as [|f l IH]; simpl; [reflexivity|].
  rewrite map_app, IH. unfold decodes, process_file.
  destruct (load_entry (snd f)) as [[audio sr]|]; reflexivity.
Qed.

Lemma load_entry_full_clip (e : entry) (audio : list sample) (sr : Z) :
  load_entry e = Some (audio, sr) ->
  sr = SC.AUDIO_SAMPLE_RATE /\
  Z.of_nat (length audio) = SC.AUDIO_SAMPLE_RATE * SC.AUDIO_CLIP_DURATION.
Proof.
  destruct e as [f|listing]; cbn [load_entry]; [|discriminate].
  unfold load_and_pad_audio.
  destruct (librosa_load f SC.AUDIO_SAMPLE_RATE) as [decoded|]; [|discriminate].
  destruct (pad_or_trim zero decoded SC.AUDIO_CLIP_DURATION SC.AUDIO_SAMPLE_RATE)
    as [out|] eqn:Hout; [|discriminate].
  intros [= <- <-]. split; [reflexivity|].
  eapply pad_or_trim_length; [|exact Hout].
  unfold SC.AUDIO_SAMPLE_RATE, SC.AUDIO_CLIP_DURATION. lia.
Qed.

(** X5. The two lists that [load_audio_files] returns are parallel: there
    are as many labels as spectrograms, whatever the corpus. *)
Theorem audios_and_labels_are_parallel (path : entry)
    (audios : list spectrogram) (labels class_labels : list string) :
  load_audio_files path = Ok (audios, labels, class_labels) ->
  length audios = length labels.
Proof.
  destruct path as [f|listing]; [discriminate|].
  rewrite load_audio_files_directory. intros [= <- <- _].
  now rewrite !length_map.
Qed.

(** X6. Whatever the number of files that fail to load, the loader returns
    normally, with one sample per file that decodes and none for the others:
    the labels are the class labels of the decodable files, in visiting
    order, and the vocabulary is the list of sub-directory names in
    enumeration order. *)
Theorem samples_are_the_decodable_files (listing : list (string * entry)) :
  exists audios,
    load_audio_files (Directory listing)
    = Ok (audios, map fst (filter decodes (corpus_files listing)),
          map fst (filter (fun d => isdir (snd d)) listing)) /\
    length audios = length (filter decodes (corpus_files listing)).
Proof.
  rewrite load_audio_files_directory, samples_of_corpus, contributed_labels.
  eexists. split; [reflexivity|].
  rewrite length_map, <- (length_map snd), contributed_labels. apply length_map.
Qed.

(** X7. Every spectrogram that the loader returns is extracted, at the
    configured sample rate, from a waveform of exactly
    [AUDIO_SAMPLE_RATE * AUDIO_CLIP_DURATION = 32000] samples. *)
Theorem every_spectrogram_is_of_a_full_clip (path : entry)
    (audios : list spectrogram) (labels class_labels : list string) :
  load_audio_files path = Ok (audios, labels, class_labels) ->
  Forall (fun a => exists audio : list sample,
            Z.of_nat (length audio) = 32000 /\
            a = power_to_db (melspectrogram audio SC.AUDIO_SAMPLE_RATE)) audios.
Proof.
  destruct path as [f|listing]; [discriminate|].
  rewrite load_audio_files_directory. intros [= <- _ _].
  apply Forall_forall. intros a Ha.
  apply in_map_iff in Ha as [[a' label] [Heq Hin]]. simpl in Heq. subst a'.
  apply in_flat_map in Hin as [c [_ Hin]].
  unfold process_class in Hin. destruct (snd c) as [|files]; [contradiction|].
  apply in_flat_map in Hin as [file_entry [_ Hin]].
  unfold process_file in Hin.
  destruct (load_entry (snd file_entry)) as [[audio sr]|] eqn:Hload; [|contradiction].
  destruct Hin as [[= <- _]|[]].
  destruct (load_entry_full_clip _ Hload) as [-> Hlen].
  exists audio. split; [exact Hlen|reflexivity].
Qed.

Lemma class_labels_repeat (c : string * entry) :
  map snd (process_class c)
  = repeat (fst c) (length (filter decodes (class_files c))).
Proof.
  rewrite process_class_files, contributed_labels.
  unfold class_files. destruct (snd c) as [|files]; [reflexivity|].
  generalize (fst c). intros label.
  induction files as [|f files IH]; simpl; [reflexivity|].
  destruct (decodes (label, snd f)); simpl; now rewrite IH.
Qed.

(** X8. The samples of a class are contiguous and the classes follow each
    other in enumeration order: the label list is, class directory after
    class directory, the label repeated once per decodable file. *)
Theorem labels_are_grouped_by_class (listing : list (string * entry)) :
  exists audios,
    load_audio_files (Directory listing)
    = Ok (audios,
          flat_map (fun c => repeat (fst c) (length (filter decodes (class_files c))))
            (filter (fun d => isdir (snd d)) listing),
          map fst (filter (fun d => isdir (snd d)) listing)).
Proof.
  assert (Hgroups : forall classes,
            map snd (flat_map process_class classes)
            = flat_map (fun c => repeat (fst c) (length (filter decodes (class_files c))))
                classes).
  { induction classes as [|c classes IH]; simpl; [reflexivity|].
    now rewrite map_app, IH, class_labels_repeat. }
  rewrite load_audio_files_directory, Hgroups. eexists. reflexivity.
Qed.

(** Where a returned spectrogram comes from. *)
Lemma loaded_audio_origin (classes : list (string * entry)) (a : spectrogram) :
  In a (map fst (flat_map process_class classes)) ->
  exists audio : list sample,
    Z.of_nat (length audio) = SC.AUDIO_SAMPLE_RATE * SC.AUDIO_CLIP_DURATION /\
    a = power_to_db (melspectrogram audio SC.AUDIO_SAMPLE_RATE).
Proof.
  intros Ha. apply in_map_iff in Ha as [[a' label] [Heq Hin]]. simpl in Heq. subst a'.
  apply in_flat_map in Hin as [c [_ Hin]].
  unfold process_class in Hin. destruct (snd c) as [|files]; [contradiction|].
  apply in_flat_map in Hin as [file_entry [_ Hin]].
  unfold process_file in Hin.
  destruct (load_entry (snd file_entry)) as [[audio sr]|] eqn:Hload; [|contradiction].
  destruct Hin as [[= <- _]|[]].
  destruct (load_entry_full_clip _ Hload) as [-> Hlen].
  exists audio. split; [exact Hlen|reflexivity].
Qed.

End CorpusLoader.

(** ** Label encoding: [LabelEncoder().fit_transform] and [to_categorical] *)

Module LabelEncoder.

(** The order of [np.unique] on strings: code point by code point. *)
Definition lt (a b : string) : Prop := String_as_OT.compare a b = Lt.

Fixpoint insert (x : string) (l : list string) : list string :=
  match l with
  | [] => [x]
  | y :: l' =>
      match String_as_OT.compare x y with
      | Lt => x :: l
      | Eq => l
      | Gt => y :: insert x l'
      end
  end.

(** [np.unique(y)]: the distinct values of [y] in ascending order. *)
Definition np_unique (y : list string) : list string := fold_right insert [] y.

(** The position of [x] in [l] ([length l] when absent). *)
Fixpoint index_of (x : string) (l : list string) : nat :=
  match l with
  | [] => O
  | y :: l' => if String.eqb x y then O else S (index_of x l')
  end.

(** [fit] stores [classes_ = np.unique(y)]; [fit_transform] returns, for
    every element of [y], its index in [classes_]. *)
Definition classes_ (y : list string) : list string := np_unique y.

Definition fit_transform (y : list string) : list nat :=
  map (fun label => index_of label (classes_ y)) y.

Lemma lt_irrefl (a : string) : ~ lt a a.
Proof. apply (@StrictOrder_Irreflexive _ _ String_as_OT.lt_strorder). Qed.

Lemma lt_trans (a b c : string) : lt a b -> lt b c -> lt a c.
Proof. apply (@StrictOrder_Transitive _ _ String_as_OT.lt_strorder). Qed.

Lemma compare_gt_lt (a b : string) : String_as_OT.compare a b = Gt -> lt b a.
Proof.
  intros H. destruct (String_as_OT.compare_spec a b); try discriminate. assumption.
Qed.

Lemma compare_eq (a b : string) : String_as_OT.compare a b = Eq -> a = b.
Proof.
  intros H. destruct (String_as_OT.compare_spec a b); try discriminate. assumption.
Qed.

Lemma in_insert (x y : string) (l : list string) :
  In y (insert x l) <-> y = x \/ In y l.
Proof.
  induction l as [|z l IH]; simpl; [intuition|].
  destruct (String_as_OT.compare x z) eqn:Hc; simpl.
  - apply compare_eq in Hc. subst z. intuition.
  - intuition.
  - rewrite IH. intuition.
Qed.

Lemma insert_sorted (x : string) (l : list string) :
  StronglySorted lt l -> StronglySorted lt (insert x l).
Proof.
  induction 1 as [|z l Hl IH Hz]; simpl; [repeat constructor|].
  destruct (String_as_OT.compare x z) eqn:Hc.
  - now constructor.
  - constructor; [now constructor|]. constructor; [assumption|].
    eapply Forall_impl; [|exact Hz]. intros w Hw. eapply lt_trans; eassumption.
  - constructor; [assumption|]. apply Forall_forall. intros w Hw.
    apply in_insert in Hw. destruct Hw as [->|Hw].
    + now apply compare_gt_lt.
    + rewrite Forall_forall in Hz. now apply Hz.
Qed.

Lemma np_unique_sorted (y : list string) : StronglySorted lt (np_unique y).
Proof.
  induction y as [|x y IH]; simpl; [constructor|]. now apply insert_sorted.
Qed.

Lemma in_np_unique (y : list string) (x : string) : In x (np_unique y) <-> In x y.
Proof.
  induction y as [|z y IH]; simpl; [reflexivity|].
  rewrite in_insert, IH. intuition.
Qed.

Lemma index_of_lookup (x : string) (l : list string) :
  In x l -> nth_error l (index_of x l) = Some x.
Proof.
  induction l as [|z l IH]; simpl; [contradiction|].
  intros Hin. destruct (String.eqb_spec x z) as [->|Hne]; [reflexivity|].
  destruct Hin as [->|Hin]; [contradiction|]. now apply IH.
Qed.

(** Two ascending lists without repetition that hold the same strings are
    the same list. *)
Lemma sorted_unique (l1 : list string) :
  forall l2, StronglySorted lt l1 -> StronglySorted lt l2 ->
  (forall x, In x l1 <-> In x l2) -> l1 = l2.
Proof.
  induction l1 as [|a l1 IH]; intros [|b l2] H1 H2 Hin.
  - reflexivity.
  - destruct (proj2 (Hin b) (or_introl eq_refl)).
  - destruct (proj1 (Hin a) (or_introl eq_refl)).
  - inversion H1 as [|? ? Hs1 Hf1]; inversion H2 as [|? ? Hs2 Hf2]; subst.
    rewrite Forall_forall in Hf1, Hf2.
    assert (Hab : a = b).
    { destruct (proj1 (Hin a) (or_introl eq_refl)) as [Hba|Ha]; [now symmetry|].
      destruct (proj2 (Hin b) (or_introl eq_refl)) as [Hab|Hb]; [assumption|].
      exfalso. apply (lt_irrefl (a := a)).
      eapply lt_trans; [apply Hf1, Hb | apply Hf2, Ha]. }
    subst b. f_equal. apply IH; try assumption.
    intros x. split; intros Hx.
    + destruct (proj1 (Hin x) (or_intror Hx)) as [<-|Hx2]; [|assumption].
      exfalso. exact (lt_irrefl (Hf1 _ Hx)).
    + destruct (proj2 (Hin x) (or_intror Hx)) as [<-|Hx1]; [|assumption].
      exfalso. exact (lt_irrefl (Hf2 _ Hx)).
Qed.

(** The encoding of a sample decodes back to its label through
    [classes_]. *)
Lemma fit_transform_lookup (y : list string) (i : nat) (label : string) :
  nth_error y i = Some label ->
  exists k, nth_error (fit_transform y) i = Some k /\
            k = index_of label (classes_ y) /\
            nth_error (classes_ y) k = Some label.
Proof.
  intros Hi. unfold fit_transform. rewrite nth_error_map, Hi. simpl.
  eexists. split; [reflexivity|]. split; [reflexivity|].
  apply index_of_lookup, in_np_unique. eapply nth_error_In; eassumption.
Qed.

End LabelEncoder.

(** [to_categorical(y)] with the default [num_classes=None]: the width is
    [max(y) + 1], and [np.max] of an empty array raises [ValueError].  The
    entries are the floats 1.0 and 0.0, written [1] and [0]. *)
Definition one_hot (num_classes i : nat) : list Z :=
  map (fun j => if Nat.eqb j i then 1 else 0) (seq 0 num_classes).

Definition to_categorical (y : list nat) : result (list (list Z)) :=
  match y with
  | [] => Raise ValueError
  | _ :: _ =>
      let num_classes := S (list_max y) in
      Ok (map (one_hot num_classes) y)
  end.

(** The label-encoding lines of the preparation cell: [labels_categorical]. *)
Definition labels_categorical (labels : list string) : result (list (list Z)) :=
  to_categorical (LabelEncoder.fit_transform labels).

(** [build_model(input_shape, num_classes=len(class_labels))]: the width of
    the classifier's output layer. *)
Definition num_classes (class_labels : list string) : nat := length class_labels.

(** *** Helper facts *)

Lemma sorted_NoDup (l : list string) : StronglySorted LabelEncoder.lt l -> NoDup l.
Proof.
  induction 1 as [|x l _ IH Hx]; constructor; [|assumption].
  intros Hin. rewrite Forall_forall in Hx.
  exact (LabelEncoder.lt_irrefl (Hx x Hin)).
Qed.

Lemma index_of_nth_error (l : list string) :
  NoDup l -> forall k x, nth_error l k = Some x -> LabelEncoder.index_of x l = k.
Proof.
  induction 1 as [|y l Hy _ IH]; intros [|k] x Hk; simpl in *; try discriminate.
  - injection Hk as ->. now rewrite String.eqb_refl.
  - destruct (String.eqb_spec x y) as [->|_].
    + exfalso. apply Hy. eapply nth_error_In; eassumption.
    + f_equal. now apply IH.
Qed.

Lemma index_of_bound (x : string) (l : list string) :
  In x l -> (LabelEncoder.index_of x l < length l)%nat.
Proof.
  induction l as [|y l IH]; simpl; [contradiction|]. intros Hin.
  destruct (String.eqb_spec x y) as [->|Hne]; [lia|].
  destruct Hin as [->|Hin]; [contradiction|]. specialize (IH Hin). lia.
Qed.

Lemma one_hot_length (n i : nat) : length (one_hot n i) = n.
Proof. unfold one_hot. now rewrite length_map, length_seq. Qed.

Lemma one_hot_nth (n i j : nat) :
  (j < n)%nat -> nth j (one_hot n i) 0 = if Nat.eqb j i then 1 else 0.
Proof.
  intros Hj. unfold one_hot.
  set (f := fun k : nat => if Nat.eqb k i then 1 else 0).
  transitivity (nth j (map f (seq 0 n)) (f O)).
  - apply nth_indep. now rewrite length_map, length_seq.
  - rewrite map_nth, seq_nth by assumption. reflexivity.
Qed.

(** The largest index that [fit_transform] produces is the last position of
    [classes_]. *)
Lemma fit_transform_max (labels : list string) :
  labels <> [] ->
  S (list_max (LabelEncoder.fit_transform labels))
  = length (LabelEncoder.classes_ labels).
Proof.
  intros Hne. set (classes := LabelEncoder.classes_ labels).
  set (encoded := LabelEncoder.fit_transform labels).
  assert (Hlt : (list_max encoded < length classes)%nat).
  { apply list_max_lt; [destruct labels; [congruence|discriminate]|].
    apply Forall_forall. intros k Hk. apply in_map_iff in Hk as [label [<- Hin]].
    apply index_of_bound, LabelEncoder.in_np_unique, Hin. }
  assert (Hge : (length classes - 1 <= list_max encoded)%nat).
  { destruct (nth_error classes (length classes - 1)) as [c|] eqn:Hc;
      [|apply nth_error_None in Hc; lia].
    assert (Hin : In c labels)
      by (apply LabelEncoder.in_np_unique; eapply nth_error_In; eassumption).
    pose proof (index_of_nth_error (sorted_NoDup (LabelEncoder.np_unique_sorted labels))
                  _ Hc) as Hidx.
    fold (LabelEncoder.classes_ labels) in Hidx. fold classes in Hidx.
    pose proof (proj1 (list_max_le encoded (list_max encoded)) (Nat.le_refl _)) as Hall.
    rewrite Forall_forall in Hall. rewrite <- Hidx. apply Hall.
    apply in_map_iff. exists c. split; [reflexivity|assumption]. }
  lia.
Qed.

(** X9. For a non-empty list of sample labels the label-encoding lines
    produce one target per sample; every target has as many entries as
    there are distinct sample labels, and it is one-hot: 1 at the index of
    the sample's label in [classes_], 0 everywhere else. *)
Lemma labels_categorical_one_hot (labels : list string) :
  labels <> [] ->
  exists targets,
    labels_categorical labels = Ok targets /\
    length targets = length labels /\
    Forall (fun t => length t = length (LabelEncoder.classes_ labels)) targets /\
    forall i label, nth_error labels i = Some label ->
      exists t, nth_error targets i = Some t /\
        forall j, (j < length (LabelEncoder.classes_ labels))%nat ->
          nth j t 0
          = if Nat.eqb j (LabelEncoder.index_of label (LabelEncoder.classes_ labels))
            then 1 else 0.
Proof.
  intros Hne. pose proof (fit_transform_max Hne) as Hmax.
  unfold labels_categorical, to_categorical.
  destruct (LabelEncoder.fit_transform labels) as [|k encoded] eqn:Henc.
  { destruct labels; [congruence|discriminate]. }
  rewrite Hmax. eexists. split; [reflexivity|].
  rewrite length_map, <- Henc. split; [apply length_map|]. split.
  - apply Forall_map, Forall_forall. intros x _. apply one_hot_length.
  - intros i label Hi.
    destruct (LabelEncoder.fit_transform_lookup labels i Hi) as [x [Hx [-> _]]].
    rewrite nth_error_map, Hx. simpl. eexists. split; [reflexivity|].
    intros j Hj. now apply one_hot_nth.
Qed.

Lemma labels_categorical_shape (labels : list string) :
  labels <> [] ->
  exists targets,
    labels_categorical labels = Ok targets /\
    length targets = length labels /\
    Forall (fun t => length t = length (LabelEncoder.classes_ labels)) targets.
Proof.
  intros Hne. pose proof (fit_transform_max Hne) as Hmax.
  unfold labels_categorical, to_categorical.
  destruct (LabelEncoder.fit_transform labels) as [|k encoded] eqn:Henc.
  { destruct labels; [congruence|discriminate]. }
  rewrite Hmax. eexists. split; [reflexivity|].
  rewrite length_map, <- Henc. split; [apply length_map|].
  apply Forall_map, Forall_forall. intros x _. apply one_hot_length.
Qed.

(** *** Further properties of the label encoding *)

(** X10. The encoding is faithful: two samples get the same class index
    exactly when they carry the same label. *)
Theorem equal_index_iff_equal_label (labels : list string) (i j : nat)
    (label_i label_j : string) :
  nth_error labels i = Some label_i ->
  nth_error labels j = Some label_j ->
  (nth_error (LabelEncoder.fit_transform labels) i
   = nth_error (LabelEncoder.fit_transform labels) j
   <-> label_i = label_j).
Proof.
  intros Hi Hj.
  destruct (LabelEncoder.fit_transform_lookup labels i Hi) as [ki [Hki [-> Hbi]]].
  destruct (LabelEncoder.fit_transform_lookup labels j Hj) as [kj [Hkj [-> Hbj]]].
  rewrite Hki, Hkj. split.
  - intros [= Heq]. rewrite Heq, Hbj in Hbi. now injection Hbi.
  - now intros ->.
Qed.

(** X11. The label-to-index mapping depends only on which labels occur
    among the samples, not on their order or on how often each occurs. *)
Theorem classes_depend_on_the_label_set (labels labels' : list string) :
  (forall c, In c labels <-> In c labels') ->
  LabelEncoder.classes_ labels = LabelEncoder.classes_ labels' /\
  forall c, LabelEncoder.index_of c (LabelEncoder.classes_ labels)
            = LabelEncoder.index_of c (LabelEncoder.classes_ labels').
Proof.
  intros Hsame.
  assert (Heq : LabelEncoder.classes_ labels = LabelEncoder.classes_ labels').
  { apply LabelEncoder.sorted_unique; try apply LabelEncoder.np_unique_sorted.
    intros c. unfold LabelEncoder.classes_.
    rewrite !LabelEncoder.in_np_unique. apply Hsame. }
  split; [assumption|]. intros c. now rewrite Heq.
Qed.

(** X12. The class indices in use are dense: with [k] distinct sample
    labels, every encoded index is below [k] and every index below [k] is
    the encoding of some sample. *)
Theorem indices_are_dense (labels : list string) :
  Forall (fun n => (n < length (LabelEncoder.classes_ labels))%nat)
    (LabelEncoder.fit_transform labels) /\
  forall n, (n < length (LabelEncoder.classes_ labels))%nat ->
            In n (LabelEncoder.fit_transform labels).
Proof.
  split.
  - apply Forall_forall. intros n Hn. apply in_map_iff in Hn as [label [<- Hin]].
    apply index_of_bound, LabelEncoder.in_np_unique, Hin.
  - intros n Hn.
    destruct (nth_error (LabelEncoder.classes_ labels) n) as [c|] eqn:Hc;
      [|apply nth_error_None in Hc; lia].
    apply in_map_iff. exists c. split.
    + apply index_of_nth_error; [|assumption].
      apply sorted_NoDup, LabelEncoder.np_unique_sorted.
    + apply LabelEncoder.in_np_unique. eapply nth_error_In; eassumption.
Qed.

(** ** TensorPreparer: padding, [prepare_spectrograms] *)

Fixpoint mapM {A B : Type} (f : A -> result B) (l : list A) : result (list B) :=
  match l with
  | [] => Ok []
  | a :: l' => b <- f a ;; bs <- mapM f l' ;; Ok (b :: bs)
  end.

(** Python's [max] over a generator: [ValueError] on an empty one. *)
Definition python_max (l : list nat) : result nat :=
  match l with
  | [] => Raise ValueError
  | x :: l' => Ok (fold_left Nat.max l' x)
  end.

Section TensorPreparer.

Variable pixel : Type.
Variable zero : pixel.

(** A two-dimensional array (a spectrogram) and a three-dimensional one
    (an image: height, width, channels), each with its shape and its
    indexing function. *)
Record ndarray2 : Type := {
  shape0 : nat;
  shape1 : nat;
  at2 : nat -> nat -> pixel
}.

Record ndarray3 : Type := {
  height : nat;
  width : nat;
  channels : nat;
  at3 : nat -> nat -> nat -> pixel
}.

(** [tf.image.resize(image, size, method='bilinear')]: on an image of
    non-zero size and a positive target size it returns an image of height
    and width [size] with the channels of the input. *)
Variable tf_image_resize : ndarray3 -> nat * nat -> result ndarray3.
Hypothesis tf_image_resize_shape :
  forall (image : ndarray3) (th tw : nat),
    (0 < height image)%nat -> (0 < width image)%nat ->
    (0 < th)%nat -> (0 < tw)%nat ->
    exists out,
      tf_image_resize image (th, tw) = Ok out /\
      height out = th /\ width out = tw /\ channels out = channels image.

(** [np.pad(a, ((0, bottom), (0, right)), 'constant')]. *)
Definition np_pad2 (a : ndarray2) (bottom right : Z) : result ndarray2 :=
  if (bottom <? 0) || (right <? 0) then Raise ValueError
  else Ok {| shape0 := shape0 a + Z.to_nat bottom;
             shape1 := shape1 a + Z.to_nat right;
             at2 := fun i j =>
                      if (i <? shape0 a)%nat && (j <? shape1 a)%nat
                      then at2 a i j else zero |}.

(** [np.array] of a list of equally shaped arrays stacks them along a new
    first axis; the stack is kept as the list of its slices.  Arrays of
    different shapes do not stack. *)
Definition same_shape2 (a b : ndarray2) : bool :=
  (shape0 a =? shape0 b)%nat && (shape1 a =? shape1 b)%nat.

Definition np_array2 (l : list ndarray2) : result (list ndarray2) :=
  match l with
  | [] => Ok []
  | a :: _ => if forallb (same_shape2 a) l then Ok l else Raise ValueError
  end.

Definition same_shape3 (a b : ndarray3) : bool :=
  (height a =? height b)%nat && (width a =? width b)%nat
  && (channels a =? channels b)%nat.

Definition np_array3 (l : list ndarray3) : result (list ndarray3) :=
  match l with
  | [] => Ok []
  | a :: _ => if forallb (same_shape3 a) l then Ok l else Raise ValueError
  end.

(** [spect[:, :, np.newaxis]]. *)
Definition newaxis (spect : ndarray2) : ndarray3 :=
  {| height := shape0 spect; width := shape1 spect; channels := 1;
     at3 := fun i j _ => at2 spect i j |}.

(** [np.repeat(images, repeats, axis=3)] on a stack of images: every
    channel is repeated [repeats] times in place.  The array built from an
    empty list has one axis only, and axis 3 is out of bounds for it. *)
Definition repeat_channels (repeats : nat) (image : ndarray3) : ndarray3 :=
  {| height := height image; width := width image;
     channels := channels image * repeats;
     at3 := fun i j c => at3 image i j (c / repeats)%nat |}.

Definition np_repeat_axis3 (images : list ndarray3) (repeats : nat)
  : result (list ndarray3) :=
  match images with
  | [] => Raise AxisError
  | _ :: _ => Ok (map (repeat_channels repeats) images)
  end.

Definition prepare_spectrograms (spectrograms : list ndarray2) (target_size : nat * nat)
  : result (list ndarray3) :=
  resized <- mapM (fun spect => tf_image_resize (newaxis spect) target_size)
               spectrograms ;;
  resized_spectrograms <- np_array3 resized ;;
  np_repeat_axis3 resized_spectrograms 3.

(** The padding lines of the preparation cell: [audios_padded]. *)
Definition audios_padded (audios : list ndarray2) : result (list ndarray2) :=
  max_length <- python_max (map shape1 audios) ;;
  max_height <- python_max (map shape0 audios) ;;
  padded <- mapM (fun audio =>
                    np_pad2 audio
                      (Z.of_nat max_height - Z.of_nat (shape0 audio))
                      (Z.of_nat max_length - Z.of_nat (shape1 audio)))
              audios ;;
  np_array2 padded.

(** Padding followed by [prepare_spectrograms]; the notebook calls it with
    the default [target_size]. *)
Definition tensor_preparer (audios : list ndarray2) (target_size : nat * nat)
  : result (list ndarray3) :=
  padded <- audios_padded audios ;;
  prepare_spectrograms padded target_size.

Definition prepared_spectrograms (audios : list ndarray2) : result (list ndarray3) :=
  tensor_preparer audios (260%nat, 260%nat).

(** *** Helper facts *)

Lemma fold_max_ge (l : list nat) (x : nat) :
  (x <= fold_left Nat.max l x)%nat /\
  forall y, In y l -> (y <= fold_left Nat.max l x)%nat.
Proof.
  revert x. induction l as [|z l IH]; intros x; simpl; [split; [lia|contradiction]|].
  destruct (IH (Nat.max x z)) as [Hx Hl]. split; [lia|].
  intros y [<-|Hy]; [lia|]. now apply Hl.
Qed.

Lemma python_max_spec (l : list nat) :
  l <> [] -> exists m, python_max l = Ok m /\ forall y, In y l -> (y <= m)%nat.
Proof.
  destruct l as [|x l]; [congruence|]. intros _. simpl.
  eexists. split; [reflexivity|].
  destruct (fold_max_ge l x) as [Hx Hl]. intros y [<-|Hy]; [assumption|]. now apply Hl.
Qed.

Lemma mapM_Forall2 {A B : Type} (f : A -> result B) (P : A -> B -> Prop) (l : list A) :
  (forall a, In a l -> exists b, f a = Ok b /\ P a b) ->
  exists bs, mapM f l = Ok bs /\ Forall2 P l bs.
Proof.
  induction l as [|a l IH]; intros Hf; simpl.
  - eexists. split; [reflexivity|constructor].
  - destruct (Hf a (or_introl eq_refl)) as [b [Hb HP]].
    destruct IH as [bs [Hbs HPs]]; [intros; apply Hf; now right|].
    rewrite Hb, Hbs. simpl. eexists. split; [reflexivity|]. now constructor.
Qed.

Lemma np_array2_uniform (l : list ndarray2) (h w : nat) :
  Forall (fun a => shape0 a = h /\ shape1 a = w) l -> np_array2 l = Ok l.
Proof.
  intros Hall. destruct l as [|a l]; [reflexivity|]. unfold np_array2.
  replace (forallb (same_shape2 a) (a :: l)) with true; [reflexivity|].
  symmetry. apply forallb_forall. intros b Hb.
  rewrite Forall_forall in Hall.
  destruct (Hall a (or_introl eq_refl)) as [Ha0 Ha1].
  destruct (Hall b Hb) as [Hb0 Hb1].
  unfold same_shape2. now rewrite Ha0, Ha1, Hb0, Hb1, !Nat.eqb_refl.
Qed.

Lemma np_array3_uniform (l : list ndarray3) (h w c : nat) :
  Forall (fun a => height a = h /\ width a = w /\ channels a = c) l ->
  np_array3 l = Ok l.
Proof.
  intros Hall. destruct l as [|a l]; [reflexivity|]. unfold np_array3.
  replace (forallb (same_shape3 a) (a :: l)) with true; [reflexivity|].
  symmetry. apply forallb_forall. intros b Hb.
  rewrite Forall_forall in Hall.
  destruct (Hall a (or_introl eq_refl)) as [Ha0 [Ha1 Ha2]].
  destruct (Hall b Hb) as [Hb0 [Hb1 Hb2]].
  unfold same_shape3. now rewrite Ha0, Ha1, Ha2, Hb0, Hb1, Hb2, !Nat.eqb_refl.
Qed.

Lemma Forall2_length_right_Forall {A B : Type} (P : A -> B -> Prop) (R : B -> Prop)
    (l : list A) (bs : list B) :
  Forall2 P l bs -> (forall a b, P a b -> R b) -> length bs = length l /\ Forall R bs.
Proof.
  induction 1 as [|a b l bs Hab _ IH]; intros HPR; simpl; [split; constructor|].
  destruct (IH HPR) as [-> HR]. split; [reflexivity|]. constructor; eauto.
Qed.

(** Padding gives every spectrogram of a non-empty batch the shape
    [(max_height, max_length)] and leaves the batch size unchanged. *)
Lemma audios_padded_uniform (audios : list ndarray2) :
  audios <> [] ->
  exists padded h w,
    audios_padded audios = Ok padded /\
    length padded = length audios /\
    Forall (fun a => shape0 a = h /\ shape1 a = w) padded /\
    (forall a, In a audios -> (shape0 a <= h)%nat /\ (shape1 a <= w)%nat).
Proof.
  intros Hne. unfold audios_padded.
  destruct (python_max_spec (l := map shape1 audios)) as [w [Hw Hwmax]];
    [now destruct audios|].
  destruct (python_max_spec (l := map shape0 audios)) as [h [Hh Hhmax]];
    [now destruct audios|].
  rewrite Hw, Hh. simpl.
  assert (Hbound : forall a, In a audios -> (shape0 a <= h)%nat /\ (shape1 a <= w)%nat)
    by (intros a Ha; split; [apply Hhmax | apply Hwmax]; now apply in_map).
  destruct (mapM_Forall2
              (fun audio => np_pad2 audio (Z.of_nat h - Z.of_nat (shape0 audio))
                              (Z.of_nat w - Z.of_nat (shape1 audio)))
              (fun _ b => shape0 b = h /\ shape1 b = w) audios)
    as [padded [Hpadded Hshapes]].
  { intros a Ha. destruct (Hbound a Ha) as [H0 H1]. unfold np_pad2.
    destruct (Z.ltb_spec (Z.of_nat h - Z.of_nat (shape0 a)) 0); [lia|].
    destruct (Z.ltb_spec (Z.of_nat w - Z.of_nat (shape1 a)) 0); [lia|].
    simpl. eexists. split; [reflexivity|]. simpl. lia. }
  rewrite Hpadded. simpl.
  destruct (Forall2_length_right_Forall
              (fun b => shape0 b = h /\ shape1 b = w) Hshapes) as [Hlen Hall];
    [tauto|].
  rewrite (np_array2_uniform Hall). exists padded, h, w. auto.
Qed.

(** *** Claim about the tensor preparer *)

(** C5. For a non-empty batch of spectrograms of non-zero size the
    preparer returns one tensor per input spectrogram, every tensor has
    shape [(target_height, target_width, 3)], and the three channel slices
    of a tensor are identical.  (On an empty batch [max] raises
    [ValueError] and nothing is produced.) *)
Theorem tensor_preparer_shapes (audios : list ndarray2) (target_height target_width : nat) :
  audios <> [] ->
  Forall (fun a => (0 < shape0 a)%nat /\ (0 < shape1 a)%nat) audios ->
  (0 < target_height)%nat -> (0 < target_width)%nat ->
  exists tensors,
    tensor_preparer audios (target_height, target_width) = Ok tensors /\
    length tensors = length audios /\
    Forall (fun t => height t = target_height /\ width t = target_width /\
                     channels t = 3%nat) tensors /\
    Forall (fun t => forall i j c c' : nat, (c < 3)%nat -> (c' < 3)%nat ->
                     at3 t i j c = at3 t i j c') tensors.
Proof.
  intros Hne Hpos Hth Htw. unfold tensor_preparer.
  destruct (audios_padded_uniform Hne) as [padded [h [w [Hpad [Hlen [Hshape Hbound]]]]]].
  rewrite Hpad. simpl. unfold prepare_spectrograms.
  assert (Hhw : (0 < h)%nat /\ (0 < w)%nat).
  { destruct audios as [|a audios]; [congruence|].
    inversion Hpos as [|? ? [Ha0 Ha1] _]; subst.
    destruct (Hbound a (or_introl eq_refl)). lia. }
  destruct (mapM_Forall2
              (fun spect => tf_image_resize (newaxis spect) (target_height, target_width))
              (fun _ out => height out = target_height /\ width out = target_width /\
                            channels out = 1%nat) padded)
    as [resized [Hresized Hres]].
  { intros a Ha. rewrite Forall_forall in Hshape. destruct (Hshape a Ha) as [H0 H1].
    destruct (tf_image_resize_shape (newaxis a) (th := target_height) (tw := target_width))
      as [out [Hout [? [? ?]]]]; simpl; try lia.
    exists out. auto. }
  rewrite Hresized. simpl.
  destruct (Forall2_length_right_Forall
              (fun out => height out = target_height /\ width out = target_width /\
                               channels out = 1%nat) Hres) as [Hlen' Hall]; [tauto|].
  rewrite (np_array3_uniform Hall). simpl.
  destruct resized as [|r resized].
  { exfalso. simpl in Hlen'. destruct audios; [congruence|]. simpl in Hlen. lia. }
  unfold np_repeat_axis3. eexists. split; [reflexivity|].
  rewrite length_map. split; [congruence|]. split.
  - apply Forall_map. eapply Forall_impl; [|exact Hall].
    intros t [? [? Hc]]. simpl. rewrite Hc. auto.
  - apply Forall_map. apply Forall_forall. intros t _ i j c c' Hc Hc'.
    unfold repeat_channels. cbn [at3].
    now rewrite !Nat.div_small by assumption.
Qed.

(** *** Further properties of the tensor preparer *)

Lemma fold_max_in (l : list nat) (x : nat) :
  fold_left Nat.max l x = x \/ In (fold_left Nat.max l x) l.
Proof.
  revert x. induction l as [|z l IH]; intros x; simpl; [now left|].
  destruct (IH (Nat.max x z)) as [Heq|Hin]; [|now right; right].
  rewrite Heq. destruct (Nat.max_spec x z) as [[_ ->]|[_ ->]]; [right|]; now left.
Qed.

Lemma python_max_in (l : list nat) (m : nat) : python_max l = Ok m -> In m l.
Proof.
  destruct l as [|x l]; [discriminate|]. simpl. intros [= <-].
  destruct (fold_max_in l x) as [->|Hin]; [now left|now right].
Qed.

Lemma Forall2_map_right {A B C : Type} (P : A -> C -> Prop) (g : B -> C)
    (l : list A) (bs : list B) :
  Forall2 (fun a b => P a (g b)) l bs -> Forall2 P l (map g bs).
Proof. induction 1; simpl; constructor; assumption. Qed.

(** X13. Padding a non-empty batch keeps every spectrogram intact: the
    padded array has the common shape [(max_height, max_length)], holds the
    original value at every index of the original and zero at every other
    index (the pad is on the bottom and right edges), and the common height
    and width are those of some spectrogram of the batch. *)
Theorem padding_keeps_content (audios : list ndarray2) :
  audios <> [] ->
  exists padded max_height max_length,
    audios_padded audios = Ok padded /\
    Forall2 (fun audio p =>
               shape0 p = max_height /\ shape1 p = max_length /\
               forall i j, at2 p i j
                           = if (i <? shape0 audio)%nat && (j <? shape1 audio)%nat
                             then at2 audio i j else zero)
      audios padded /\
    In max_height (map shape0 audios) /\
    In max_length (map shape1 audios) /\
    forall audio, In audio audios ->
      (shape0 audio <= max_height)%nat /\ (shape1 audio <= max_length)%nat.
Proof.
  intros Hne. unfold audios_padded.
  destruct (python_max_spec (l := map shape1 audios)) as [w [Hw Hwmax]];
    [now destruct audios|].
  destruct (python_max_spec (l := map shape0 audios)) as [h [Hh Hhmax]];
    [now destruct audios|].
  rewrite Hw, Hh. simpl.
  assert (Hbound : forall a, In a audios -> (shape0 a <= h)%nat /\ (shape1 a <= w)%nat)
    by (intros a Ha; split; [apply Hhmax | apply Hwmax]; now apply in_map).
  destruct (mapM_Forall2
              (fun audio => np_pad2 audio (Z.of_nat h - Z.of_nat (shape0 audio))
                              (Z.of_nat w - Z.of_nat (shape1 audio)))
              (fun audio p =>
                 shape0 p = h /\ shape1 p = w /\
                 forall i j, at2 p i j
                             = if (i <? shape0 audio)%nat && (j <? shape1 audio)%nat
                               then at2 audio i j else zero) audios)
    as [padded [Hpadded Hkept]].
  { intros a Ha. destruct (Hbound a Ha) as [H0 H1]. unfold np_pad2.
    destruct (Z.ltb_spec (Z.of_nat h - Z.of_nat (shape0 a)) 0); [lia|].
    destruct (Z.ltb_spec (Z.of_nat w - Z.of_nat (shape1 a)) 0); [lia|].
    simpl. eexists. split; [reflexivity|]. simpl.
    split; [lia|]. split; [lia|]. reflexivity. }
  rewrite Hpadded. simpl.
  destruct (Forall2_length_right_Forall
              (fun b => shape0 b = h /\ shape1 b = w) Hkept) as [_ Hall];
    [tauto|].
  rewrite (np_array2_uniform Hall). exists padded, h, w.
  split; [reflexivity|]. split; [assumption|].
  split; [exact (python_max_in _ Hh)|]. split; [exact (python_max_in _ Hw)|assumption].
Qed.

(** X14. The preparer keeps the order of the batch, and each of the three
    channels of the k-th tensor is the bilinear resize of the k-th padded
    spectrogram, entry by entry. *)
Theorem tensors_replicate_the_resized_spectrogram (audios : list ndarray2)
    (target_height target_width : nat) :
  audios <> [] ->
  Forall (fun a => (0 < shape0 a)%nat /\ (0 < shape1 a)%nat) audios ->
  (0 < target_height)%nat -> (0 < target_width)%nat ->
  exists padded tensors,
    audios_padded audios = Ok padded /\
    tensor_preparer audios (target_height, target_width) = Ok tensors /\
    Forall2 (fun p t =>
               exists resized,
                 tf_image_resize (newaxis p) (target_height, target_width) = Ok resized /\
                 forall i j c : nat, (c < 3)%nat -> at3 t i j c = at3 resized i j 0%nat)
      padded tensors.
Proof.
  intros Hne Hpos Hth Htw. unfold tensor_preparer.
  destruct (audios_padded_uniform Hne) as [padded [h [w [Hpad [Hlen [Hshape Hbound]]]]]].
  rewrite Hpad. simpl. unfold prepare_spectrograms.
  assert (Hhw : (0 < h)%nat /\ (0 < w)%nat).
  { destruct audios as [|a audios]; [congruence|].
    inversion Hpos as [|? ? [Ha0 Ha1] _]; subst.
    destruct (Hbound a (or_introl eq_refl)). lia. }
  destruct (mapM_Forall2
              (fun spect => tf_image_resize (newaxis spect) (target_height, target_width))
              (fun spect out =>
                 tf_image_resize (newaxis spect) (target_height, target_width) = Ok out /\
                 height out = target_height /\ width out = target_width /\
                 channels out = 1%nat) padded)
    as [resized [Hresized Hres]].
  { intros a Ha. rewrite Forall_forall in Hshape. destruct (Hshape a Ha) as [H0 H1].
    destruct (tf_image_resize_shape (newaxis a) (th := target_height) (tw := target_width))
      as [out [Hout [? [? ?]]]]; simpl; try lia.
    exists out. auto. }
  rewrite Hresized. simpl.
  destruct (Forall2_length_right_Forall
              (fun out => height out = target_height /\ width out = target_width /\
                          channels out = 1%nat) Hres) as [Hlen' Hall]; [tauto|].
  rewrite (np_array3_uniform Hall). simpl.
  destruct resized as [|r resized].
  { exfalso. simpl in Hlen'. destruct audios; [congruence|]. simpl in Hlen. lia. }
  unfold np_repeat_axis3. exists padded. eexists.
  split; [reflexivity|]. split; [reflexivity|].
  apply Forall2_map_right. eapply Forall2_impl; [|exact Hres].
  intros p out [Hout _]. exists out. split; [exact Hout|].
  intros i j c Hc. unfold repeat_channels. cbn [at3].
  now rewrite Nat.div_small by assumption.
Qed.

Lemma tensor_preparer_ok (audios : list ndarray2) (target_height target_width : nat) :
  audios <> [] ->
  Forall (fun a => (0 < shape0 a)%nat /\ (0 < shape1 a)%nat) audios ->
  (0 < target_height)%nat -> (0 < target_width)%nat ->
  exists tensors,
    tensor_preparer audios (target_height, target_width) = Ok tensors /\
    length tensors = length audios /\
    Forall (fun t => height t = target_height /\ width t = target_width /\
                     channels t = 3%nat) tensors.
Proof.
  intros Hne Hpos Hth Htw. unfold tensor_preparer.
  destruct (audios_padded_uniform Hne) as [padded [h [w [Hpad [Hlen [Hshape Hbound]]]]]].
  rewrite Hpad. simpl. unfold prepare_spectrograms.
  assert (Hhw : (0 < h)%nat /\ (0 < w)%nat).
  { destruct audios as [|a audios]; [congruence|].
    inversion Hpos as [|? ? [Ha0 Ha1] _]; subst.
    destruct (Hbound a (or_introl eq_refl)). lia. }
  destruct (mapM_Forall2
              (fun spect => tf_image_resize (newaxis spect) (target_height, target_width))
              (fun _ out => height out = target_height /\ width out = target_width /\
                            channels out = 1%nat) padded)
    as [resized [Hresized Hres]].
  { intros a Ha. rewrite Forall_forall in Hshape. destruct (Hshape a Ha) as [H0 H1].
    destruct (tf_image_resize_shape (newaxis a) (th := target_height) (tw := target_width))
      as [out [Hout [? [? ?]]]]; simpl; try lia.
    exists out. auto. }
  rewrite Hresized. simpl.
  destruct (Forall2_length_right_Forall
              (fun out => height out = target_height /\ width out = target_width /\
                          channels out = 1%nat) Hres) as [Hlen' Hall]; [tauto|].
  rewrite (np_array3_uniform Hall). simpl.
  destruct resized as [|r resized].
  { exfalso. simpl in Hlen'. destruct audios; [congruence|]. simpl in Hlen. lia. }
  unfold np_repeat_axis3. eexists. split; [reflexivity|].
  rewrite length_map. split; [congruence|].
  apply Forall_map. eapply Forall_impl; [|exact Hall].
  intros t [? [? Hc]]. simpl. rewrite Hc. auto.
Qed.

(** Padding a batch whose spectrograms already share one shape. *)
Lemma audios_padded_of_uniform (audios : list ndarray2) (h w : nat) :
  audios <> [] ->
  Forall (fun a => shape0 a = h /\ shape1 a = w) audios ->
  exists padded,
    audios_padded audios = Ok padded /\
    Forall2 (fun a p => shape0 p = h /\ shape1 p = w /\
                        forall i j, (i < h)%nat -> (j < w)%nat -> at2 p i j = at2 a i j)
      audios padded.
Proof.
  intros Hne Hall. rewrite Forall_forall in Hall. unfold audios_padded.
  destruct (python_max_spec (l := map shape1 audios)) as [mw [Hw _]];
    [now destruct audios|].
  destruct (python_max_spec (l := map shape0 audios)) as [mh [Hh _]];
    [now destruct audios|].
  assert (Hmw : mw = w).
  { apply python_max_in, in_map_iff in Hw as [a [<- Ha]]. now destruct (Hall a Ha). }
  assert (Hmh : mh = h).
  { apply python_max_in, in_map_iff in Hh as [a [<- Ha]]. now destruct (Hall a Ha). }
  subst mw mh. rewrite Hw, Hh. simpl.
  destruct (mapM_Forall2
              (fun audio => np_pad2 audio (Z.of_nat h - Z.of_nat (shape0 audio))
                              (Z.of_nat w - Z.of_nat (shape1 audio)))
              (fun a p => shape0 p = h /\ shape1 p = w /\
                          forall i j, (i < h)%nat -> (j < w)%nat -> at2 p i j = at2 a i j)
              audios)
    as [padded [Hpadded Hkept]].
  { intros a Ha. destruct (Hall a Ha) as [H0 H1]. cbv beta. unfold np_pad2.
    rewrite H0, H1, !Z.sub_diag. simpl. eexists. split; [reflexivity|]. simpl.
    split; [lia|]. split; [lia|]. intros i j Hi Hj.
    destruct (Nat.ltb_spec i h); [|lia]. destruct (Nat.ltb_spec j w); [|lia]. reflexivity. }
  rewrite Hpadded. simpl.
  destruct (Forall2_length_right_Forall
              (fun b => shape0 b = h /\ shape1 b = w) Hkept) as [_ Huniform];
    [tauto|].
  rewrite (np_array2_uniform Huniform). exists padded. split; [reflexivity|assumption].
Qed.

End TensorPreparer.

(** ** DatasetSplitter: [train_test_split(..., test_size=0.2, random_state=42)] *)

(** Python's [round] on a real: to the nearest integer, a tie to the even
    one. *)
Definition py_round (q : Q) : Z :=
  let f := Qfloor q in
  match Qcompare (q - inject_Z f) (1 # 2) with
  | Lt => f
  | Gt => f + 1
  | Eq => if Z.even f then f else f + 1
  end.

Section DatasetSplitter.

(** [np.random.RandomState(random_state).permutation(n)]: a permutation of
    [0 .. n-1] fixed by the seed. *)
Variable rng_permutation : Z -> nat -> list nat.
Hypothesis rng_permutation_spec :
  forall (random_state : Z) (n : nat),
    Permutation (rng_permutation random_state n) (seq 0 n).

(** scikit-learn's size validation for a float [test_size] and
    [train_size=None]: [n_test = ceil(test_size * n_samples)],
    [n_train = n_samples - n_test], and an empty train set is an error.
    On the multiples of a fifth that [0.2 * n_samples] takes, the float
    product and the exact one have the same ceiling. *)
Definition validate_shuffle_split (n_samples : nat) (test_size : Q)
  : result (nat * nat) :=
  if Qle_bool test_size 0 || Qle_bool 1 test_size then Raise ValueError
  else
    let n_test := Qceiling (test_size * inject_Z (Z.of_nat n_samples)) in
    let n_train := Z.of_nat n_samples - n_test in
    if n_train =? 0 then Raise ValueError
    else Ok (Z.to_nat n_train, Z.to_nat n_test).

(** [ShuffleSplit]: the first [n_test] entries of the permutation are the
    test indices, the next [n_train] the train indices. *)
Definition shuffle_split (n_samples : nat) (test_size : Q) (random_state : Z)
  : result (list nat * list nat) :=
  sizes <- validate_shuffle_split n_samples test_size ;;
  let permutation := rng_permutation random_state n_samples in
  let ind_test := firstn (snd sizes) permutation in
  let ind_train := firstn (fst sizes) (skipn (snd sizes) permutation) in
  Ok (ind_train, ind_test).

(** Indexing an array with an index array. *)
Definition safe_indexing {A : Type} (a : list A) (indices : list nat) : list A :=
  flat_map (fun i => match nth_error a i with Some x => [x] | None => [] end) indices.

(** [train_test_split(X, y, test_size, random_state)], returning
    [(X_train, X_test, y_train, y_test)]. *)
Definition train_test_split {A B : Type} (X : list A) (y : list B)
    (test_size : Q) (random_state : Z)
  : result (list A * list A * list B * list B) :=
  if negb (length X =? length y)%nat then Raise ValueError
  else
    split <- shuffle_split (length X) test_size random_state ;;
    Ok (safe_indexing X (fst split), safe_indexing X (snd split),
        safe_indexing y (fst split), safe_indexing y (snd split)).

(** *** Helper facts *)

Lemma ceil_fifth (n : Z) :
  0 <= n -> Qceiling ((2 # 10) * inject_Z n) = (n + 4) / 5.
Proof.
  intros Hn. unfold Qceiling, Qfloor, Qopp, Qmult, inject_Z. cbn [Qnum Qden].
  change (Z.pos (10 * 1)) with 10.
  pose proof (Z.div_mod (- (2 * n)) 10 ltac:(lia)).
  pose proof (Z.mod_pos_bound (- (2 * n)) 10 ltac:(lia)).
  pose proof (Z.div_mod (n + 4) 5 ltac:(lia)).
  pose proof (Z.mod_pos_bound (n + 4) 5 ltac:(lia)).
  lia.
Qed.

Lemma validate_fifth (n : nat) :
  (2 <= n)%nat ->
  validate_shuffle_split n (2 # 10)
  = Ok (n - Z.to_nat ((Z.of_nat n + 4) / 5), Z.to_nat ((Z.of_nat n + 4) / 5))%nat
  /\ (0 < Z.to_nat ((Z.of_nat n + 4) / 5) < n)%nat.
Proof.
  intros Hn. unfold validate_shuffle_split.
  change (Qle_bool (2 # 10) 0 || Qle_bool 1 (2 # 10)) with false. cbv iota.
  rewrite ceil_fifth by lia.
  pose proof (Z.div_mod (Z.of_nat n + 4) 5 ltac:(lia)).
  pose proof (Z.mod_pos_bound (Z.of_nat n + 4) 5 ltac:(lia)).
  destruct (Z.eqb_spec (Z.of_nat n - (Z.of_nat n + 4) / 5) 0); [lia|].
  split; [|lia]. do 2 f_equal. lia.
Qed.

Lemma safe_indexing_length {A : Type} (a : list A) (indices : list nat) :
  (forall i, In i indices -> (i < length a)%nat) ->
  length (safe_indexing a indices) = length indices.
Proof.
  induction indices as [|i indices IH]; intros Hin; [reflexivity|].
  unfold safe_indexing in *. simpl. rewrite length_app, IH by (intros; apply Hin; now right).
  destruct (nth_error a i) eqn:Hi; [reflexivity|].
  apply nth_error_None in Hi. specialize (Hin i (or_introl eq_refl)). lia.
Qed.

Lemma NoDup_app_disjoint {A : Type} (l1 l2 : list A) (a : A) :
  NoDup (l1 ++ l2) -> In a l1 -> ~ In a l2.
Proof.
  induction l1 as [|b l1 IH]; simpl; [contradiction|].
  intros Hnd [->|Hin] Hin2; inversion Hnd as [|? ? Hnot Hnd']; subst.
  - apply Hnot, in_or_app. now right.
  - now apply (IH Hnd' Hin).
Qed.

Lemma shuffle_split_fifth (n : nat) (random_state : Z) :
  (2 <= n)%nat ->
  let perm := rng_permutation random_state n in
  let n_test := Z.to_nat ((Z.of_nat n + 4) / 5) in
  shuffle_split n (2 # 10) random_state = Ok (skipn n_test perm, firstn n_test perm).
Proof.
  intros Hn perm n_test. unfold shuffle_split.
  destruct (validate_fifth Hn) as [-> Hbound]. simpl. fold perm n_test.
  do 2 f_equal. apply firstn_all2. rewrite length_skipn. subst perm.
  rewrite (Permutation_length (rng_permutation_spec random_state n)), length_seq.
  lia.
Qed.

(** *** Claim about the splitter *)

(** C6 (as the code has it). For [n >= 2] prepared tensors and as many
    targets, the split at [test_size = 0.2] returns train and test index
    sets that are disjoint and together hold every index [0 .. n-1]
    exactly once; the test set has [ceil(n * 0.2)] elements, which is 2
    for [n = 10]; the returned arrays are the inputs at those indices. *)
Theorem split_is_partition {A B : Type} (X : list A) (y : list B) (random_state : Z) :
  length X = length y ->
  (2 <= length X)%nat ->
  exists ind_train ind_test,
    shuffle_split (length X) (2 # 10) random_state = Ok (ind_train, ind_test) /\
    train_test_split X y (2 # 10) random_state
    = Ok (safe_indexing X ind_train, safe_indexing X ind_test,
          safe_indexing y ind_train, safe_indexing y ind_test) /\
    Permutation (ind_train ++ ind_test) (seq 0 (length X)) /\
    (forall i, In i ind_train -> ~ In i ind_test) /\
    Z.of_nat (length ind_test) = (Z.of_nat (length X) + 4) / 5 /\
    Z.of_nat (length ind_test) = Qceiling ((2 # 10) * inject_Z (Z.of_nat (length X))) /\
    length (safe_indexing X ind_train) = length ind_train /\
    length (safe_indexing X ind_test) = length ind_test /\
    length (safe_indexing y ind_train) = length ind_train /\
    length (safe_indexing y ind_test) = length ind_test /\
    (length X = 10%nat -> length ind_test = 2%nat).
Proof.
  intros Hlen Hn.
  set (n := length X) in *.
  set (perm := rng_permutation random_state n).
  set (n_test := Z.to_nat ((Z.of_nat n + 4) / 5)).
  pose proof (rng_permutation_spec random_state n) as Hperm. fold perm in Hperm.
  assert (Hplen : length perm = n)
    by (rewrite (Permutation_length Hperm); apply length_seq).
  destruct (validate_fifth Hn) as [_ Hbound]. fold n_test in Hbound.
  assert (Hsplit : Permutation (skipn n_test perm ++ firstn n_test perm) (seq 0 n)).
  { etransitivity; [apply Permutation_app_comm|]. now rewrite firstn_skipn. }
  assert (Hrange : forall i, In i (skipn n_test perm ++ firstn n_test perm) -> (i < n)%nat).
  { intros i Hi. apply (Permutation_in _ Hsplit) in Hi. apply in_seq in Hi. lia. }
  assert (Htest : length (firstn n_test perm) = n_test)
    by (rewrite length_firstn; lia).
  exists (skipn n_test perm), (firstn n_test perm).
  split; [apply (shuffle_split_fifth random_state Hn)|].
  split.
  { unfold train_test_split. fold n. rewrite <- Hlen, Nat.eqb_refl. simpl.
    now rewrite (shuffle_split_fifth random_state Hn). }
  split; [assumption|]. split.
  { intros i. apply NoDup_app_disjoint.
    apply (Permutation_NoDup (Permutation_sym Hsplit)), seq_NoDup. }
  split; [rewrite Htest; subst n_test; apply Z2Nat.id, Z.div_pos; lia|].
  split; [rewrite ceil_fifth by lia; rewrite Htest; subst n_test;
          apply Z2Nat.id, Z.div_pos; lia|].
  repeat split.
  - apply safe_indexing_length. intros i Hi. apply Hrange, in_or_app. now left.
  - apply safe_indexing_length. intros i Hi. apply Hrange, in_or_app. now right.
  - apply safe_indexing_length. intros i Hi. rewrite <- Hlen.
    apply Hrange, in_or_app. now left.
  - apply safe_indexing_length. intros i Hi. rewrite <- Hlen.
    apply Hrange, in_or_app. now right.
  - intros H10. rewrite Htest. subst n_test. now rewrite H10.
Qed.

(** *** Further properties of the splitter *)

Lemma nth_error_combine {A B : Type} (X : list A) :
  forall (y : list B) (i : nat),
    nth_error (combine X y) i
    = match nth_error X i, nth_error y i with
      | Some a, Some b => Some (a, b)
      | _, _ => None
      end.
Proof.
  induction X as [|a X IH]; intros [|b y] [|i]; simpl; try reflexivity.
  - now destruct (nth_error X i).
  - apply IH.
Qed.

Lemma safe_indexing_combine {A B : Type} (X : list A) (y : list B) (indices : list nat) :
  length X = length y ->
  safe_indexing (combine X y) indices
  = combine (safe_indexing X indices) (safe_indexing y indices).
Proof.
  intros Hlen. induction indices as [|i indices IH]; [reflexivity|].
  unfold safe_indexing in *. simpl. rewrite IH, nth_error_combine.
  destruct (nth_error X i) as [a|] eqn:Ha; destruct (nth_error y i) as [b|] eqn:Hb;
    try reflexivity.
  - apply nth_error_None in Hb. assert (i < length X)%nat
      by (apply nth_error_Some; now rewrite Ha). lia.
  - apply nth_error_None in Ha. assert (i < length y)%nat
      by (apply nth_error_Some; now rewrite Hb). lia.
Qed.

Lemma safe_indexing_seq {A : Type} (l : list A) :
  forall pre, safe_indexing (pre ++ l) (seq (length pre) (length l)) = l.
Proof.
  induction l as [|a l IH]; intros pre; [reflexivity|].
  unfold safe_indexing in *. simpl.
  rewrite nth_error_app2, Nat.sub_diag by lia. simpl. f_equal.
  specialize (IH (pre ++ [a])). rewrite <- app_assoc, length_app in IH. simpl in IH.
  now rewrite Nat.add_1_r in IH.
Qed.

Lemma safe_indexing_permutation {A : Type} (l : list A) (indices : list nat) :
  Permutation indices (seq 0 (length l)) -> Permutation (safe_indexing l indices) l.
Proof.
  intros Hperm. rewrite <- (safe_indexing_seq l []) at 2. simpl.
  unfold safe_indexing. now apply Permutation_flat_map.
Qed.

(** X15. With [test_size=0.2] the split raises [ValueError] exactly when
    the two arrays differ in length or hold fewer than two samples (the
    train set would be empty); on every other input it returns. *)
Theorem split_fails_iff {A B : Type} (X : list A) (y : list B) (random_state : Z) :
  train_test_split X y (2 # 10) random_state = Raise ValueError
  <-> (length X <> length y \/ (length X < 2)%nat).
Proof.
  unfold train_test_split.
  destruct (Nat.eqb_spec (length X) (length y)) as [Heq|Hne]; simpl.
  - destruct (Nat.lt_ge_cases (length X) 2) as [Hsmall|Hbig].
    + split; [now right|]. intros _. unfold shuffle_split.
      destruct (length X) as [|[|n]]; [reflexivity|reflexivity|lia].
    + destruct (validate_fifth Hbig) as [Hsizes _].
      unfold shuffle_split. rewrite Hsizes. simpl.
      split; [discriminate|]. intros [Hne|Hsmall]; [contradiction|lia].
  - split; [now left|reflexivity].
Qed.

(** X16. The split loses nothing and keeps each tensor with its own
    target: for two arrays of the same length [n >= 2], the train pairs
    [(X_train[k], y_train[k])] and the test pairs together are exactly the
    input pairs [(X[i], y[i])], each once. *)
Theorem split_keeps_pairs_together {A B : Type} (X : list A) (y : list B)
    (random_state : Z) :
  length X = length y ->
  (2 <= length X)%nat ->
  exists X_train X_test y_train y_test,
    train_test_split X y (2 # 10) random_state = Ok (X_train, X_test, y_train, y_test) /\
    length X_train = length y_train /\
    length X_test = length y_test /\
    Permutation (combine X_train y_train ++ combine X_test y_test) (combine X y).
Proof.
  intros Hlen Hn.
  set (n := length X) in *.
  set (perm := rng_permutation random_state n).
  set (n_test := Z.to_nat ((Z.of_nat n + 4) / 5)).
  pose proof (rng_permutation_spec random_state n) as Hperm. fold perm in Hperm.
  assert (Hsplit : Permutation (skipn n_test perm ++ firstn n_test perm) (seq 0 n)).
  { etransitivity; [apply Permutation_app_comm|]. now rewrite firstn_skipn. }
  assert (Hrange : forall i, In i (skipn n_test perm ++ firstn n_test perm) -> (i < n)%nat).
  { intros i Hi. apply (Permutation_in _ Hsplit) in Hi. apply in_seq in Hi. lia. }
  unfold train_test_split. fold n. rewrite <- Hlen, Nat.eqb_refl. simpl.
  rewrite (shuffle_split_fifth random_state Hn). simpl. fold perm n_test.
  do 4 eexists. split; [reflexivity|].
  split.
  { rewrite !safe_indexing_length; [reflexivity| |];
      intros i Hi; [rewrite <- Hlen|]; apply Hrange, in_or_app; now left. }
  split.
  { rewrite !safe_indexing_length; [reflexivity| |];
      intros i Hi; [rewrite <- Hlen|]; apply Hrange, in_or_app; now right. }
  rewrite <- !safe_indexing_combine by exact Hlen.
  unfold safe_indexing. rewrite <- flat_map_app.
  apply (safe_indexing_permutation (combine X y)).
  rewrite length_combine, <- Hlen, Nat.min_id. exact Hsplit.
Qed.

(** X17. For [n >= 2] samples neither part of the split is empty, the two
    parts have [n] elements together, the train part is at least as large as
    the test part, and the test part holds at least a fifth of the samples
    and less than a fifth plus one. *)
Theorem split_sizes {A B : Type} (X : list A) (y : list B) (random_state : Z) :
  length X = length y ->
  (2 <= length X)%nat ->
  exists X_train X_test y_train y_test,
    train_test_split X y (2 # 10) random_state = Ok (X_train, X_test, y_train, y_test) /\
    (length X_train + length X_test = length X)%nat /\
    (1 <= length X_test <= length X_train)%nat /\
    (length X <= 5 * length X_test < length X + 5)%nat.
Proof.
  intros Hlen Hn.
  set (n := length X) in *.
  set (perm := rng_permutation random_state n).
  set (n_test := Z.to_nat ((Z.of_nat n + 4) / 5)).
  pose proof (rng_permutation_spec random_state n) as Hperm. fold perm in Hperm.
  assert (Hplen : length perm = n)
    by (rewrite (Permutation_length Hperm); apply length_seq).
  assert (Hrange : forall i, In i perm -> (i < n)%nat).
  { intros i Hi. apply (Permutation_in _ Hperm) in Hi. apply in_seq in Hi. lia. }
  assert (Hfifth : (n <= 5 * n_test < n + 5)%nat).
  { subst n_test.
    pose proof (Z.div_mod (Z.of_nat n + 4) 5 ltac:(lia)).
    pose proof (Z.mod_pos_bound (Z.of_nat n + 4) 5 ltac:(lia)). lia. }
  unfold train_test_split. fold n. rewrite <- Hlen, Nat.eqb_refl. simpl.
  rewrite (shuffle_split_fifth random_state Hn). simpl. fold perm n_test.
  do 4 eexists. split; [reflexivity|].
  rewrite !safe_indexing_length.
  - rewrite length_firstn, length_skipn, Hplen. lia.
  - intros i Hi. fold n. apply Hrange.
    rewrite <- (firstn_skipn n_test perm). apply in_or_app. now left.
  - intros i Hi. fold n. apply Hrange.
    rewrite <- (firstn_skipn n_test perm). apply in_or_app. now right.
Qed.

Lemma safe_indexing_In {A : Type} (a : list A) (indices : list nat) (x : A) :
  In x (safe_indexing a indices) -> In x a.
Proof.
  unfold safe_indexing. intros Hx. apply in_flat_map in Hx as [i [_ Hx]].
  destruct (nth_error a i) as [x'|] eqn:Hi; [|contradiction].
  destruct Hx as [<-|[]]. eapply nth_error_In; eassumption.
Qed.

Lemma train_test_split_too_small {A B : Type} (X : list A) (y : list B)
    (random_state : Z) :
  (length X < 2)%nat ->
  train_test_split X y (2 # 10) random_state = Raise ValueError.
Proof.
  intros Hsmall. unfold train_test_split.
  destruct (length X =? length y)%nat; [|reflexivity]. simpl. unfold shuffle_split.
  destruct (length X) as [|[|n]]; [reflexivity|reflexivity|lia].
Qed.

Lemma train_test_split_fifth {A B : Type} (X : list A) (y : list B) (random_state : Z) :
  length X = length y ->
  (2 <= length X)%nat ->
  exists X_train X_test y_train y_test,
    train_test_split X y (2 # 10) random_state = Ok (X_train, X_test, y_train, y_test) /\
    (length X_train + length X_test = length X)%nat /\
    length y_train = length X_train /\
    length y_test = length X_test /\
    (forall x, In x (X_train ++ X_test) -> In x X) /\
    (forall t, In t (y_train ++ y_test) -> In t y).
Proof.
  intros Hlen Hn.
  set (n := length X) in *.
  set (perm := rng_permutation random_state n).
  set (n_test := Z.to_nat ((Z.of_nat n + 4) / 5)).
  pose proof (rng_permutation_spec random_state n) as Hperm. fold perm in Hperm.
  assert (Hplen : length perm = n)
    by (rewrite (Permutation_length Hperm); apply length_seq).
  assert (Hrange : forall i, In i perm -> (i < n)%nat).
  { intros i Hi. apply (Permutation_in _ Hperm) in Hi. apply in_seq in Hi. lia. }
  assert (Hfirst : forall i, In i (firstn n_test perm) -> (i < n)%nat).
  { intros i Hi. apply Hrange. rewrite <- (firstn_skipn n_test perm).
    apply in_or_app. now left. }
  assert (Hskip : forall i, In i (skipn n_test perm) -> (i < n)%nat).
  { intros i Hi. apply Hrange. rewrite <- (firstn_skipn n_test perm).
    apply in_or_app. now right. }
  destruct (validate_fifth Hn) as [_ Hbound]. fold n n_test in Hbound.
  unfold train_test_split. fold n. rewrite <- Hlen, Nat.eqb_refl. simpl.
  rewrite (shuffle_split_fifth random_state Hn). simpl. fold perm n_test.
  do 4 eexists. split; [reflexivity|].
  rewrite !safe_indexing_length by (try rewrite <- Hlen; assumption).
  rewrite length_firstn, length_skipn, Hplen.
  split; [lia|]. split; [reflexivity|]. split; [reflexivity|].
  split; intros x Hx; apply in_app_or in Hx as [Hx|Hx];
    eapply safe_indexing_In; eassumption.
Qed.

End DatasetSplitter.

(** ** TrainingController: [model.fit] with its three callbacks *)

Section TrainingController.

(** The classifier is opaque: its state, one epoch of training over the
    augmented batches (at a learning rate, in a given epoch) and its
    evaluation loss on [(X_test, y_test)]. *)
Variable weights : Type.
Variable train_epoch : nat -> Q -> weights -> weights.
Variable evaluate : weights -> Q.

(** The arguments of the callbacks and of [fit] that the notebook sets;
    the others keep Keras' defaults ([min_delta=0] for [EarlyStopping],
    [min_delta=1e-4] and [cooldown=0] for [ReduceLROnPlateau]). *)
Record fit_config : Type := {
  epochs : nat;
  es_patience : nat;
  rlr_patience : nat;
  rlr_factor : Q;
  rlr_min_lr : Q
}.

Definition notebook_config : fit_config :=
  {| epochs := 100; es_patience := 20; rlr_patience := 10;
     rlr_factor := 1 # 10; rlr_min_lr := 1 # 100000 |}.

Variable cfg : fit_config.

Record model_state : Type := {
  model_weights : weights;
  learning_rate : Q;
  stop_training : bool
}.

(** [ModelCheckpoint(save_best_only=True, monitor='val_loss', mode='min')]:
    [best] starts at infinity ([None]); [saved_model] is the content of
    [models/best_model.h5]. *)
Record checkpoint_state : Type := {
  ckpt_best : option Q;
  saved_model : option weights
}.

Record plateau_state : Type := {
  rlr_best : option Q;
  rlr_wait : nat
}.

Record early_stopping_state : Type := {
  es_best : option Q;
  es_wait : nat;
  es_best_weights : option weights;
  es_best_epoch : nat;
  es_stopped_epoch : nat
}.

Record trainer : Type := {
  model : model_state;
  checkpoint : checkpoint_state;
  plateau : plateau_state;
  early_stopping : early_stopping_state;
  val_loss_history : list Q
}.

(** [np.less(a, b)] against a best value that starts at infinity. *)
Definition np_less (a : Q) (best : option Q) : bool :=
  match best with
  | None => true
  | Some b => if Qlt_le_dec a b then true else false
  end.

Definition checkpoint_on_epoch_end (current : Q) (m : model_state)
    (c : checkpoint_state) : checkpoint_state :=
  if np_less current (ckpt_best c)
  then {| ckpt_best := Some current; saved_model := Some (model_weights m) |}
  else c.

(** [monitor_op = lambda a, b: np.less(a, b - min_delta)]. *)
Definition plateau_on_epoch_end (current : Q) (m : model_state) (p : plateau_state)
  : model_state * plateau_state :=
  if np_less current (option_map (fun b => (b - (1 # 10000))%Q) (rlr_best p))
  then (m, {| rlr_best := Some current; rlr_wait := 0 |})
  else
    let wait := S (rlr_wait p) in
    if (rlr_patience cfg <=? wait)%nat then
      let old_lr := learning_rate m in
      if Qlt_le_dec (rlr_min_lr cfg) old_lr then
        let new_lr := Qmax (old_lr * rlr_factor cfg)%Q (rlr_min_lr cfg) in
        ({| model_weights := model_weights m; learning_rate := new_lr;
            stop_training := stop_training m |},
         {| rlr_best := rlr_best p; rlr_wait := 0 |})
      else (m, {| rlr_best := rlr_best p; rlr_wait := wait |})
    else (m, {| rlr_best := rlr_best p; rlr_wait := wait |}).

(** [EarlyStopping(monitor='val_loss', patience, restore_best_weights=True)];
    an improvement is [np.less(current - min_delta, best)]. *)
Definition early_stopping_on_epoch_end (epoch : nat) (current : Q) (m : model_state)
    (e : early_stopping_state) : model_state * early_stopping_state :=
  let best_weights :=
    match es_best_weights e with
    | None => Some (model_weights m)
    | Some w => Some w
    end in
  let wait := S (es_wait e) in
  let improved := np_less (current - 0)%Q (es_best e) in
  let best := if improved then Some current else es_best e in
  let best_epoch := if improved then epoch else es_best_epoch e in
  let best_weights := if improved then Some (model_weights m) else best_weights in
  let wait := if improved then O else wait in
  if (es_patience cfg <=? wait)%nat && (0 <? epoch)%nat then
    ({| model_weights := match best_weights with
                         | Some w => w
                         | None => model_weights m
                         end;
        learning_rate := learning_rate m;
        stop_training := true |},
     {| es_best := best; es_wait := wait; es_best_weights := best_weights;
        es_best_epoch := best_epoch; es_stopped_epoch := epoch |})
  else
    (m,
     {| es_best := best; es_wait := wait; es_best_weights := best_weights;
        es_best_epoch := best_epoch; es_stopped_epoch := es_stopped_epoch e |}).

(** One pass of the epoch loop: train, evaluate, record the loss, then run
    the callbacks in the order of the [callbacks] list. *)
Definition epoch_step (epoch : nat) (t : trainer) : trainer :=
  let w := train_epoch epoch (learning_rate (model t)) (model_weights (model t)) in
  let current := evaluate w in
  let m := {| model_weights := w; learning_rate := learning_rate (model t);
              stop_training := stop_training (model t) |} in
  let c := checkpoint_on_epoch_end current m (checkpoint t) in
  let '(m1, p) := plateau_on_epoch_end current m (plateau t) in
  let '(m2, e) := early_stopping_on_epoch_end epoch current m1 (early_stopping t) in
  {| model := m2; checkpoint := c; plateau := p; early_stopping := e;
     val_loss_history := val_loss_history t ++ [current] |}.

(** [for epoch in range(epochs): ...; if self.stop_training: break]. *)
Fixpoint fit_loop (remaining epoch : nat) (t : trainer) : trainer :=
  match remaining with
  | O => t
  | S remaining' =>
      let t' := epoch_step epoch t in
      if stop_training (model t') then t' else fit_loop remaining' (S epoch) t'
  end.

(** The state at [on_train_begin]. *)
Definition on_train_begin (initial_weights : weights) (initial_lr : Q) : trainer :=
  {| model := {| model_weights := initial_weights; learning_rate := initial_lr;
                 stop_training := false |};
     checkpoint := {| ckpt_best := None; saved_model := None |};
     plateau := {| rlr_best := None; rlr_wait := 0 |};
     early_stopping := {| es_best := None; es_wait := 0; es_best_weights := None;
                          es_best_epoch := 0; es_stopped_epoch := 0 |};
     val_loss_history := [] |}.

Variable initial_weights : weights.
Variable initial_lr : Q.

(** The trainer after a run with an epoch budget of [k]. *)
Definition run (k : nat) : trainer :=
  fit_loop k 0 (on_train_begin initial_weights initial_lr).

(** [model.fit(..., epochs=epochs, callbacks=[...])]. *)
Definition fit : trainer := run (epochs cfg).

Inductive outcome : Type := EarlyStopped | Completed.

Definition fit_outcome (t : trainer) : outcome :=
  if stop_training (model t) then EarlyStopped else Completed.

(** *** Helper facts *)

Lemma np_less_some (a b : Q) : np_less a (Some b) = true <-> (a < b)%Q.
Proof.
  simpl. destruct (Qlt_le_dec a b) as [Hlt|Hle]; split; intros H;
    try reflexivity; try assumption; try discriminate.
  exfalso. exact (Qlt_not_le _ _ H Hle).
Qed.

Lemma np_less_some_false (a b : Q) : np_less a (Some b) = false <-> (b <= a)%Q.
Proof.
  simpl. destruct (Qlt_le_dec a b) as [Hlt|Hle]; split; intros H;
    try reflexivity; try assumption; try discriminate.
  exfalso. exact (Qlt_not_le _ _ Hlt H).
Qed.

Lemma minus_zero (q : Q) : (q - 0 == q)%Q.
Proof. ring. Qed.

(** The callbacks before [EarlyStopping] leave the weights and the stop
    flag alone. *)
Lemma plateau_keeps_model (current : Q) (m : model_state) (p : plateau_state) :
  model_weights (fst (plateau_on_epoch_end current m p)) = model_weights m /\
  stop_training (fst (plateau_on_epoch_end current m p)) = stop_training m.
Proof.
  unfold plateau_on_epoch_end.
  destruct (np_less _ _); [split; reflexivity|].
  destruct (rlr_patience cfg <=? S (rlr_wait p))%nat; [|split; reflexivity].
  destruct (Qlt_le_dec _ _); split; reflexivity.
Qed.

(** The loop, read from its last pass. *)
Lemma fit_loop_last (k : nat) :
  forall (epoch : nat) (t : trainer),
    stop_training (model t) = false ->
    fit_loop (S k) epoch t =
      (if stop_training (model (fit_loop k epoch t)) then fit_loop k epoch t
       else epoch_step (epoch + k) (fit_loop k epoch t)).
Proof.
  induction k as [|k IH]; intros epoch t Hrun.
  - simpl. rewrite Hrun, Nat.add_0_r.
    destruct (stop_training (model (epoch_step epoch t))); reflexivity.
  - change (fit_loop (S (S k)) epoch t)
      with (let t' := epoch_step epoch t in
            if stop_training (model t') then t' else fit_loop (S k) (S epoch) t').
    change (fit_loop (S k) epoch t)
      with (let t' := epoch_step epoch t in
            if stop_training (model t') then t' else fit_loop k (S epoch) t').
    cbv zeta. destruct (stop_training (model (epoch_step epoch t))) eqn:Hstop.
    + now rewrite Hstop.
    + rewrite (IH _ _ Hstop). now rewrite Nat.add_succ_comm.
Qed.

Lemma run_succ (k : nat) :
  run (S k) = if stop_training (model (run k)) then run k else epoch_step k (run k).
Proof. unfold run. now rewrite fit_loop_last. Qed.

Lemma run_stopped (k k' : nat) :
  stop_training (model (run k)) = true -> (k <= k')%nat -> run k' = run k.
Proof.
  intros Hstop. induction 1 as [|k' _ IH]; [reflexivity|].
  now rewrite run_succ, IH, Hstop.
Qed.

Lemma run_running (k k' : nat) :
  stop_training (model (run k')) = false -> (k <= k')%nat ->
  stop_training (model (run k)) = false.
Proof.
  intros Hrun Hle. destruct (stop_training (model (run k))) eqn:Hstop; [|reflexivity].
  now rewrite (run_stopped Hstop Hle), Hstop in Hrun.
Qed.

Lemma run_history_length (k : nat) : (length (val_loss_history (run k)) <= k)%nat.
Proof.
  induction k as [|k IH]; [simpl; lia|]. rewrite run_succ.
  destruct (stop_training (model (run k))); [lia|].
  unfold epoch_step.
  destruct (plateau_on_epoch_end _ _ _) as [m1 p].
  destruct (early_stopping_on_epoch_end _ _ _ _) as [m2 e]. simpl.
  rewrite length_app. simpl. lia.
Qed.

Lemma run_history_prefix (k k' : nat) :
  (k <= k')%nat ->
  exists rest, val_loss_history (run k') = val_loss_history (run k) ++ rest.
Proof.
  induction 1 as [|k' _ [rest IH]]; [exists []; now rewrite app_nil_r|].
  rewrite run_succ. destruct (stop_training (model (run k'))); [now exists rest|].
  unfold epoch_step.
  destruct (plateau_on_epoch_end _ _ _) as [m1 p].
  destruct (early_stopping_on_epoch_end _ _ _ _) as [m2 e]. simpl.
  rewrite IH, <- app_assoc. eauto.
Qed.

(** What one pass of the loop does to each part of the trainer. *)
Lemma epoch_step_parts (epoch : nat) (t : trainer) :
  let w := train_epoch epoch (learning_rate (model t)) (model_weights (model t)) in
  let current := evaluate w in
  exists m1,
    model_weights m1 = w /\
    stop_training m1 = stop_training (model t) /\
    val_loss_history (epoch_step epoch t) = val_loss_history t ++ [current] /\
    checkpoint (epoch_step epoch t)
    = checkpoint_on_epoch_end current
        {| model_weights := w; learning_rate := learning_rate (model t);
           stop_training := stop_training (model t) |} (checkpoint t) /\
    (model (epoch_step epoch t), early_stopping (epoch_step epoch t))
    = early_stopping_on_epoch_end epoch current m1 (early_stopping t).
Proof.
  intros w current. unfold epoch_step. fold w. fold current.
  set (m := {| model_weights := w; learning_rate := learning_rate (model t);
               stop_training := stop_training (model t) |}).
  destruct (plateau_keeps_model current m (plateau t)) as [Hw Hs].
  destruct (plateau_on_epoch_end current m (plateau t)) as [m1 p]. simpl in Hw, Hs.
  exists m1.
  destruct (early_stopping_on_epoch_end epoch current m1 (early_stopping t)) as [m2 e].
  simpl. auto.
Qed.

(** The bookkeeping of [EarlyStopping] and [ModelCheckpoint] after [k]
    epochs of a run that has not stopped: both hold the least evaluation
    loss so far, the epoch of its first occurrence and the classifier
    state at the end of that epoch. *)
Definition tracks_best (k : nat) (t : trainer) : Prop :=
  length (val_loss_history t) = k /\
  match k with
  | O => es_best (early_stopping t) = None /\ ckpt_best (checkpoint t) = None
  | S _ =>
      let e := early_stopping t in
      exists best,
        es_best e = Some best /\
        ckpt_best (checkpoint t) = Some best /\
        nth_error (val_loss_history t) (es_best_epoch e) = Some best /\
        (forall j v, nth_error (val_loss_history t) j = Some v -> (best <= v)%Q) /\
        (forall j v, (j < es_best_epoch e)%nat ->
                     nth_error (val_loss_history t) j = Some v -> (best < v)%Q) /\
        (es_wait e + es_best_epoch e + 1 = k)%nat /\
        (es_wait e < es_patience cfg)%nat /\
        es_best_weights e = Some (model_weights (model (run (S (es_best_epoch e))))) /\
        saved_model (checkpoint t) = es_best_weights e /\
        evaluate (model_weights (model (run (S (es_best_epoch e))))) = best
  end.

Lemma nth_error_snoc {A : Type} (l : list A) (x : A) (j : nat) (v : A) :
  nth_error (l ++ [x]) j = Some v ->
  (j < length l /\ nth_error l j = Some v)%nat \/ (j = length l /\ v = x).
Proof.
  intros Hj. destruct (Nat.lt_ge_cases j (length l)) as [Hlt|Hge].
  - left. split; [assumption|]. now rewrite nth_error_app1 in Hj.
  - right. rewrite nth_error_app2 in Hj by assumption.
    destruct (j - length l)%nat as [|d] eqn:Hd.
    + simpl in Hj. injection Hj as <-. split; [lia|reflexivity].
    + simpl in Hj. now destruct d.
Qed.

Lemma run_tracks_best (k : nat) :
  (1 <= es_patience cfg)%nat ->
  stop_training (model (run k)) = false ->
  tracks_best k (run k).
Proof.
  intros Hpat. induction k as [|k IH]; intros Hrun.
  { split; [reflexivity|]. split; reflexivity. }
  pose proof (run_running Hrun (Nat.le_succ_diag_r k)) as Hprev.
  specialize (IH Hprev). destruct IH as [Hlen IH].
  pose proof (run_succ k) as Hsucc. rewrite Hprev in Hsucc.
  destruct (epoch_step_parts k (run k)) as [m1 [Hw [Hs [Hhist [Hckpt Hes]]]]].
  rewrite <- Hsucc in Hhist, Hckpt, Hes. rewrite Hprev in Hs.
  set (w := train_epoch k (learning_rate (model (run k)))
              (model_weights (model (run k)))) in *.
  set (current := evaluate w) in *.
  unfold early_stopping_on_epoch_end in Hes.
  destruct (np_less (current - 0)%Q (es_best (early_stopping (run k)))) eqn:Himp.
  - (* a new best at epoch [k] *)
    replace ((es_patience cfg <=? 0)%nat) with false in Hes
      by (symmetry; apply Nat.leb_gt; lia).
    simpl in Hes. injection Hes as Hm He.
    assert (Hlt : forall b, es_best (early_stopping (run k)) = Some b -> (current < b)%Q).
    { intros b Hb. rewrite Hb in Himp. apply np_less_some in Himp.
      now rewrite minus_zero in Himp. }
    assert (Hck : checkpoint (run (S k))
                  = {| ckpt_best := Some current; saved_model := Some w |}).
    { rewrite Hckpt. unfold checkpoint_on_epoch_end.
      destruct k as [|k0].
      - destruct IH as [_ ->]. reflexivity.
      - destruct IH as [b [Hb [-> _]]]. specialize (Hlt b Hb).
        apply np_less_some in Hlt. now rewrite Hlt. }
    split; [rewrite Hhist, length_app, Hlen; simpl; lia|].
    cbv zeta. rewrite He, Hck. simpl. exists current.
    assert (Hwk : model_weights (model (run (S k))) = w) by (rewrite Hm; exact Hw).
    repeat split; try reflexivity.
    + rewrite Hhist, nth_error_app2 by lia. now rewrite Hlen, Nat.sub_diag.
    + intros j v Hj. rewrite Hhist in Hj.
      apply nth_error_snoc in Hj. destruct Hj as [[Hjl Hj]|[_ ->]]; [|apply Qle_refl].
      destruct k as [|k0]; [rewrite Hlen in Hjl; lia|].
      destruct IH as [b [Hb [_ [_ [Hmin _]]]]].
      apply Qlt_le_weak. eapply Qlt_le_trans; [apply (Hlt b Hb)|]. eapply Hmin, Hj.
    + intros j v Hjk Hj. rewrite Hhist in Hj.
      apply nth_error_snoc in Hj. destruct Hj as [[Hjl Hj]|[Hjl _]]; [|lia].
      destruct k as [|k0]; [rewrite Hlen in Hjl; lia|].
      destruct IH as [b [Hb [_ [_ [Hmin _]]]]].
      eapply Qlt_le_trans; [apply (Hlt b Hb)|]. eapply Hmin, Hj.
    + lia.
    + lia.
    + now rewrite Hwk, Hw.
    + now rewrite Hw.
    + now rewrite Hwk.
  - (* no improvement at epoch [k] *)
    destruct k as [|k0].
    { destruct IH as [Hnone _]. rewrite Hnone in Himp. discriminate. }
    destruct IH as [b [Hb [Hcb [Hnth [Hmin [Hfirst [Hwait [Hlim [Hbw [Hsaved Heval]]]]]]]]]].
    rewrite Hb in Himp. apply np_less_some_false in Himp. rewrite minus_zero in Himp.
    rewrite Hbw in Hes.
    destruct ((es_patience cfg <=? S (es_wait (early_stopping (run (S k0)))))%nat
              && (0 <? S k0)%nat) eqn:Hcheck.
    { injection Hes as Hm _. rewrite Hm in Hrun. discriminate. }
    injection Hes as Hm He.
    apply andb_false_iff in Hcheck. destruct Hcheck as [Hcheck|Hcheck];
      [apply Nat.leb_gt in Hcheck | apply Nat.ltb_ge in Hcheck; lia].
    assert (Hck : checkpoint (run (S (S k0))) = checkpoint (run (S k0))).
    { rewrite Hckpt. unfold checkpoint_on_epoch_end. rewrite Hcb.
      apply np_less_some_false in Himp. now rewrite Himp. }
    split; [rewrite Hhist, length_app, Hlen; simpl; lia|].
    cbv zeta. rewrite He, Hck. simpl. exists b.
    assert (Hbe : (es_best_epoch (early_stopping (run (S k0))) < S k0)%nat) by lia.
    repeat split; try assumption.
    + rewrite Hhist, nth_error_app1 by lia. assumption.
    + intros j v Hj. rewrite Hhist in Hj.
      apply nth_error_snoc in Hj. destruct Hj as [[_ Hj]|[_ ->]]; [|assumption].
      eapply Hmin, Hj.
    + intros j v Hjk Hj. rewrite Hhist in Hj.
      apply nth_error_snoc in Hj. destruct Hj as [[_ Hj]|[Hjl _]]; [|lia].
      eapply Hfirst; eassumption.
    + lia.
    + now rewrite Hsaved, Hbw.
Qed.

Lemma nth_error_prefix {A : Type} (l rest : list A) (j : nat) :
  (j < length l)%nat -> nth_error (l ++ rest) j = nth_error l j.
Proof. intros Hj. now apply nth_error_app1. Qed.

Lemma nth_error_lt {A : Type} (l : list A) (j : nat) (v : A) :
  nth_error l j = Some v -> (j < length l)%nat.
Proof. intros Hj. apply nth_error_Some. now rewrite Hj. Qed.

(** *** Claim about the training loop *)

(** C8. Take a run of [fit] whose recorded evaluation losses reach a
    value [best_loss] at epoch [b] that is strictly below every earlier
    loss, and then fail to improve on it for [es_patience] consecutive
    epochs.  The run stops early, at epoch [b + es_patience]; the epoch loop
    ends there; and the classifier is left in the state it had at the end
    of epoch [b], which is the checkpointed one and evaluates to
    [best_loss], not in the state the last epoch trained. *)
Theorem early_stop_restores_best (b : nat) (best_loss : Q) :
  (1 <= es_patience cfg)%nat ->
  nth_error (val_loss_history fit) b = Some best_loss ->
  (forall j v, (j < b)%nat ->
               nth_error (val_loss_history fit) j = Some v -> (best_loss < v)%Q) ->
  (forall d, (1 <= d <= es_patience cfg)%nat ->
             exists v, nth_error (val_loss_history fit) (b + d) = Some v /\
                       (best_loss <= v)%Q) ->
  fit_outcome fit = EarlyStopped /\
  es_stopped_epoch (early_stopping fit) = (b + es_patience cfg)%nat /\
  length (val_loss_history fit) = S (b + es_patience cfg) /\
  es_best_epoch (early_stopping fit) = b /\
  model_weights (model fit) = model_weights (model (run (S b))) /\
  model_weights (model (run (S b)))
  = train_epoch b (learning_rate (model (run b))) (model_weights (model (run b))) /\
  saved_model (checkpoint fit) = Some (model_weights (model fit)) /\
  evaluate (model_weights (model fit)) = best_loss.
Proof.
  intros Hpat Hb Hbefore Hflat.
  set (P := es_patience cfg) in *.
  set (K := (b + P)%nat).
  (* the budget covers epoch [K], and the run has not stopped before it *)
  assert (Hbudget : (S K <= epochs cfg)%nat).
  { destruct (Hflat P ltac:(lia)) as [v [Hv _]].
    apply nth_error_lt in Hv. pose proof (run_history_length (epochs cfg)).
    unfold fit in Hv. subst K. lia. }
  assert (HrunK : stop_training (model (run K)) = false).
  { destruct (stop_training (model (run K))) eqn:Hstop; [|reflexivity]. exfalso.
    destruct (Hflat P ltac:(lia)) as [v [Hv _]].
    apply nth_error_lt in Hv. unfold fit in Hv.
    rewrite (run_stopped Hstop (k' := epochs cfg)) in Hv by lia.
    pose proof (run_history_length K). subst K. lia. }
  pose proof (run_tracks_best K Hpat HrunK) as [HlenK Htrack].
  destruct (run_history_prefix (k := K) (k' := epochs cfg) ltac:(lia)) as [restK HpreK].
  fold fit in HpreK.
  assert (Hh : forall j, (j < K)%nat ->
               nth_error (val_loss_history fit) j = nth_error (val_loss_history (run K)) j).
  { intros j Hj. rewrite HpreK. apply nth_error_prefix. lia. }
  destruct K as [|K0] eqn:HK; [lia|]. rewrite <- HK in *.
  cbv zeta in Htrack.
  destruct Htrack as [m [Hbest [Hcb [Hnth [Hmin [Hfirst [Hwait [Hlim [Hbw [Hsaved Heval]]]]]]]]]].
  set (e := es_best_epoch (early_stopping (run K))) in *.
  (* the best epoch on record is [b] *)
  assert (HbK : nth_error (val_loss_history (run K)) b = Some best_loss)
    by (rewrite <- Hh by lia; exact Hb).
  assert (Hmle : (m <= best_loss)%Q) by (eapply Hmin, HbK).
  assert (He : e = b).
  { destruct (Nat.lt_trichotomy e b) as [Hlt|[Heq|Hgt]]; [|assumption|]; exfalso.
    - rewrite <- Hh in Hnth by lia.
      exact (Qlt_not_le _ _ (Hbefore e m Hlt Hnth) Hmle).
    - destruct (Hflat (e - b)%nat ltac:(lia)) as [v [Hv Hle]].
      replace (b + (e - b))%nat with e in Hv by lia.
      rewrite Hh in Hv by lia. rewrite Hnth in Hv. injection Hv as <-.
      exact (Qlt_not_le _ _ (Hfirst b best_loss Hgt HbK) Hle). }
  assert (Hm : m = best_loss) by (rewrite He, HbK in Hnth; now injection Hnth).
  rewrite Hm in *. clear Hm.
  (* epoch [K]: no improvement, and the patience is used up *)
  pose proof (run_succ K) as Hsucc. rewrite HrunK in Hsucc.
  destruct (epoch_step_parts K (run K)) as [m1 [Hw [Hs [Hhist [Hckpt Hes]]]]].
  rewrite <- Hsucc in Hhist, Hckpt, Hes.
  set (current := evaluate (train_epoch K (learning_rate (model (run K)))
                              (model_weights (model (run K))))) in *.
  destruct (run_history_prefix (k := S K) (k' := epochs cfg) ltac:(lia)) as [rest Hpre].
  fold fit in Hpre. rewrite Hhist in Hpre.
  assert (Hcur : (best_loss <= current)%Q).
  { destruct (Hflat P ltac:(lia)) as [v [Hv Hle]].
    replace (b + P)%nat with K in Hv by lia.
    rewrite Hpre, nth_error_prefix in Hv by (rewrite length_app, HlenK; simpl; lia).
    rewrite nth_error_app2, HlenK, Nat.sub_diag in Hv by lia.
    simpl in Hv. now injection Hv as <-. }
  unfold early_stopping_on_epoch_end in Hes.
  rewrite Hbest, Hbw in Hes.
  assert (Hno : np_less (current - 0)%Q (Some best_loss) = false)
    by (apply np_less_some_false; now rewrite minus_zero).
  rewrite Hno in Hes.
  replace ((es_patience cfg <=? S (es_wait (early_stopping (run K))))%nat
           && (0 <? K)%nat) with true in Hes
    by (symmetry; apply andb_true_iff; split;
        [apply Nat.leb_le; fold P; lia | apply Nat.ltb_lt; lia]).
  injection Hes as Hmodel Hearly.
  assert (Hstop : stop_training (model (run (S K))) = true) by now rewrite Hmodel.
  assert (Hfit : fit = run (S K)) by (unfold fit; apply run_stopped; [assumption|lia]).
  assert (Hck : checkpoint (run (S K)) = checkpoint (run K)).
  { rewrite Hckpt. unfold checkpoint_on_epoch_end. rewrite Hcb.
    apply np_less_some_false in Hcur. now rewrite Hcur. }
  (* the state at the end of epoch [b] *)
  assert (Hrunb : stop_training (model (run (S b))) = false)
    by (apply (run_running HrunK); lia).
  assert (Htrained : model_weights (model (run (S b)))
                     = train_epoch b (learning_rate (model (run b)))
                         (model_weights (model (run b)))).
  { pose proof (run_succ b) as Hsb.
    rewrite (run_running Hrunb (Nat.le_succ_diag_r b)) in Hsb.
    destruct (epoch_step_parts b (run b)) as [mb [Hwb [_ [_ [_ Hesb]]]]].
    rewrite <- Hsb in Hesb. unfold early_stopping_on_epoch_end in Hesb.
    destruct (_ && _) in Hesb; injection Hesb as Hmb _.
    - rewrite Hmb in Hrunb. discriminate.
    - now rewrite Hmb. }
  rewrite Hfit. unfold fit_outcome. rewrite Hstop, Hearly, Hck, Hmodel, Hhist.
  simpl. rewrite length_app, HlenK, Hsaved, Hbw, He. simpl.
  repeat split; try reflexivity; try assumption; try lia.
  now rewrite <- He.
Qed.

(** *** Further properties of the training loop *)

Lemma first_stop (n : nat) :
  stop_training (model (run n)) = true ->
  exists K, (K < n)%nat /\
            stop_training (model (run K)) = false /\
            stop_training (model (run (S K))) = true.
Proof.
  induction n as [|n IH]; intros Hstop; [discriminate|].
  destruct (stop_training (model (run n))) eqn:Hn.
  - destruct (IH eq_refl) as [K [HK Hrest]]. exists K. split; [lia|assumption].
  - exists n. split; [lia|]. split; assumption.
Qed.

(** The pass of the loop in which [EarlyStopping] sets [stop_training]. *)
Lemma stopping_step (K : nat) :
  (1 <= es_patience cfg)%nat ->
  stop_training (model (run K)) = false ->
  stop_training (model (run (S K))) = true ->
  exists best current,
    es_best (early_stopping (run K)) = Some best /\
    (best <= current)%Q /\
    val_loss_history (run (S K)) = val_loss_history (run K) ++ [current] /\
    es_best_epoch (early_stopping (run (S K))) = es_best_epoch (early_stopping (run K)) /\
    es_stopped_epoch (early_stopping (run (S K))) = K /\
    (es_patience cfg <= S (es_wait (early_stopping (run K))))%nat /\
    model_weights (model (run (S K)))
    = match es_best_weights (early_stopping (run K)) with
      | Some w => w
      | None => model_weights (model (run (S K)))
      end /\
    checkpoint (run (S K))
    = checkpoint_on_epoch_end current
        {| model_weights := train_epoch K (learning_rate (model (run K)))
                              (model_weights (model (run K)));
           learning_rate := learning_rate (model (run K));
           stop_training := false |} (checkpoint (run K)).
Proof.
  intros Hpat HrunK Hstop.
  pose proof (run_succ K) as Hsucc. rewrite HrunK in Hsucc.
  destruct (epoch_step_parts K (run K)) as [m1 [Hw [Hs [Hhist [Hckpt Hes]]]]].
  rewrite <- Hsucc in Hhist, Hckpt, Hes. rewrite HrunK in Hs, Hckpt.
  set (current := evaluate (train_epoch K (learning_rate (model (run K)))
                              (model_weights (model (run K))))) in *.
  unfold early_stopping_on_epoch_end in Hes.
  destruct (np_less (current - 0)%Q (es_best (early_stopping (run K)))) eqn:Himp.
  { replace ((es_patience cfg <=? 0)%nat) with false in Hes
      by (symmetry; apply Nat.leb_gt; lia).
    simpl in Hes. injection Hes as Hm _. rewrite Hm, Hs in Hstop. discriminate. }
  destruct (es_best (early_stopping (run K))) as [best|] eqn:Hbest; [|discriminate].
  apply np_less_some_false in Himp. rewrite minus_zero in Himp.
  destruct ((es_patience cfg <=? S (es_wait (early_stopping (run K))))%nat
            && (0 <? K)%nat) eqn:Hcheck.
  2:{ injection Hes as Hm _. rewrite Hm, Hs in Hstop. discriminate. }
  apply andb_true_iff in Hcheck as [Hwait _]. apply Nat.leb_le in Hwait.
  injection Hes as Hm He.
  exists best, current. rewrite Hm, He. simpl.
  repeat split; try assumption; try reflexivity.
  destruct (es_best_weights (early_stopping (run K))); reflexivity.
Qed.

(** X18. Whenever [fit] ends by early stopping, it stops exactly
    [es_patience] epochs after the epoch [e] of the first occurrence of the
    least evaluation loss; no recorded loss is below the loss of epoch [e],
    and every earlier one is strictly above it; the classifier is left in
    the state it had at the end of epoch [e], which is the checkpointed
    state and evaluates to that least loss. *)
Theorem early_stop_implies_restored_best :
  (1 <= es_patience cfg)%nat ->
  fit_outcome fit = EarlyStopped ->
  exists e best,
    es_best_epoch (early_stopping fit) = e /\
    es_stopped_epoch (early_stopping fit) = (e + es_patience cfg)%nat /\
    length (val_loss_history fit) = S (e + es_patience cfg) /\
    nth_error (val_loss_history fit) e = Some best /\
    (forall j v, nth_error (val_loss_history fit) j = Some v -> (best <= v)%Q) /\
    (forall j v, (j < e)%nat ->
                 nth_error (val_loss_history fit) j = Some v -> (best < v)%Q) /\
    model_weights (model fit) = model_weights (model (run (S e))) /\
    saved_model (checkpoint fit) = Some (model_weights (model fit)) /\
    evaluate (model_weights (model fit)) = best.
Proof.
  intros Hpat Hout. unfold fit_outcome in Hout.
  destruct (stop_training (model fit)) eqn:Hstopped; [clear Hout|discriminate].
  destruct (first_stop _ Hstopped) as [K [HK [HrunK HstopK]]].
  assert (Hfit : fit = run (S K)) by (unfold fit; apply run_stopped; [assumption|lia]).
  destruct (stopping_step K Hpat HrunK HstopK)
    as [best [current [Hbest [Hle [Hhist [Hepoch [Hstopep [Hwait [Hw Hckpt]]]]]]]]].
  pose proof (run_tracks_best K Hpat HrunK) as [HlenK Htrack].
  destruct K as [|K0].
  { destruct Htrack as [Hnone _]. rewrite Hnone in Hbest. discriminate. }
  cbv zeta in Htrack.
  destruct Htrack as [m [Hm [Hcb [Hnth [Hmin [Hfirst [Hsum [Hlim [Hbw [Hsaved Heval]]]]]]]]]].
  rewrite Hbest in Hm. injection Hm as <-.
  set (e := es_best_epoch (early_stopping (run (S K0)))) in *.
  assert (Hck : checkpoint (run (S (S K0))) = checkpoint (run (S K0))).
  { rewrite Hckpt. unfold checkpoint_on_epoch_end. rewrite Hcb.
    apply np_less_some_false in Hle. now rewrite Hle. }
  rewrite Hbw in Hw.
  exists e, best. rewrite Hfit, Hepoch, Hstopep, Hhist, Hck, Hsaved, Hbw, Hw.
  rewrite length_app, HlenK. simpl.
  split; [reflexivity|]. split; [lia|]. split; [lia|].
  split; [rewrite nth_error_app1 by lia; assumption|].
  split.
  { intros j v Hj. apply nth_error_snoc in Hj.
    destruct Hj as [[_ Hj]|[_ ->]]; [eapply Hmin, Hj|assumption]. }
  split.
  { intros j v Hje Hj. apply nth_error_snoc in Hj.
    destruct Hj as [[_ Hj]|[Hjl _]]; [eapply Hfirst; eassumption|lia]. }
  split; [reflexivity|]. split; [reflexivity|assumption].
Qed.




End TrainingController.


(** ** Classifier: [build_model] *)

Module Classifier.











End Classifier.

(** ** Training batches: [train_datagen.flow(X_train, y_train, batch_size=32)] *)

Section TrainingBatches.

(** The iterator's [__len__]: [(n + batch_size - 1) // batch_size] batches
    per epoch. *)
Definition steps_per_epoch (n batch_size : nat) : nat :=
  ((n + batch_size - 1) / batch_size)%nat.

(** The iterator's [__getitem__(idx)] draws the samples at
    [index_array[batch_size * idx : batch_size * (idx + 1)]], where
    [index_array] is the epoch's shuffled order of the training samples;
    one epoch of [fit] asks for the batches [0 .. len - 1]. *)
Definition batch_indices (index_array : list nat) (batch_size idx : nat) : list nat :=
  Py.slice index_array (Z.of_nat (batch_size * idx)) (Z.of_nat (batch_size * (idx + 1))).

Definition epoch_batches (index_array : list nat) (batch_size : nat) : list (list nat) :=
  map (batch_indices index_array batch_size)
    (seq 0 (steps_per_epoch (length index_array) batch_size)).

Lemma slice_nat {A : Type} (l : list A) (a b : nat) :
  (a <= b)%nat ->
  Py.slice l (Z.of_nat a) (Z.of_nat b) = firstn (b - a) (skipn a l).
Proof.
  intros Hab. unfold Py.slice, Py.clamp_index.
  destruct (Z.ltb_spec (Z.of_nat a) 0); [lia|].
  destruct (Z.ltb_spec (Z.of_nat b) 0); [lia|].
  destruct (Nat.le_gt_cases (length l) a) as [Hout|Hin].
  - rewrite !skipn_all2 by lia. now rewrite !firstn_nil.
  - rewrite (Z.min_l (Z.of_nat a)) by lia. rewrite Nat2Z.id.
    destruct (Nat.le_gt_cases b (length l)) as [Hb|Hb].
    + rewrite Z.min_l by lia. f_equal. lia.
    + rewrite Z.min_r by lia.
      rewrite !firstn_all2; [reflexivity| |]; rewrite length_skipn; lia.
Qed.

Lemma firstn_add_skipn {A : Type} (l : list A) (a b : nat) :
  firstn (a + b) l = firstn a l ++ firstn b (skipn a l).
Proof.
  revert l. induction a as [|a IH]; intros [|x l]; simpl; try reflexivity.
  - now rewrite firstn_nil.
  - now rewrite IH.
Qed.

Lemma batches_concat (index_array : list nat) (batch_size k : nat) :
  concat (map (batch_indices index_array batch_size) (seq 0 k))
  = firstn (batch_size * k) index_array.
Proof.
  induction k as [|k IH]; [now rewrite Nat.mul_0_r|].
  rewrite seq_S, map_app, concat_app, IH. simpl. rewrite app_nil_r.
  unfold batch_indices. rewrite slice_nat by lia.
  replace (batch_size * (k + 1) - batch_size * k)%nat with batch_size by lia.
  replace (batch_size * S k)%nat with (batch_size * k + batch_size)%nat by lia.
  now rewrite firstn_add_skipn.
Qed.

(** X22. With a positive batch size, the batches of one epoch, taken in
    order, are the epoch's shuffled index array cut into consecutive
    pieces: every training sample enters exactly one batch, there are
    [ceil(n / batch_size)] batches, none is empty, and every batch but the
    last holds exactly [batch_size] samples. *)
Theorem epoch_batches_partition (index_array : list nat) (batch_size : nat) :
  (1 <= batch_size)%nat ->
  concat (epoch_batches index_array batch_size) = index_array /\
  length (epoch_batches index_array batch_size)
  = steps_per_epoch (length index_array) batch_size /\
  (forall idx batch, nth_error (epoch_batches index_array batch_size) idx = Some batch ->
     (1 <= length batch <= batch_size)%nat /\
     (S idx < length (epoch_batches index_array batch_size) ->
      length batch = batch_size)%nat).
Proof.
  intros Hbs. unfold epoch_batches.
  set (n := length index_array). set (k := steps_per_epoch n batch_size).
  assert (Hk : (batch_size * (k - 1) < n \/ n = 0 /\ k = 0)%nat /\ (n <= batch_size * k)%nat).
  { subst k. unfold steps_per_epoch.
    pose proof (Nat.div_mod_eq (n + batch_size - 1) batch_size).
    pose proof (Nat.mod_upper_bound (n + batch_size - 1) batch_size ltac:(lia)).
    set (q := ((n + batch_size - 1) / batch_size)%nat) in *.
    destruct (Nat.eq_dec n 0) as [Hn|Hn].
    - assert (q = 0)%nat by nia. split; [right|]; lia.
    - split; [left|]; nia. }
  destruct Hk as [Hlow Hhigh].
  split; [rewrite batches_concat; apply firstn_all2; fold n; lia|].
  split; [now rewrite length_map, length_seq|].
  intros idx batch Hidx. rewrite length_map, length_seq.
  rewrite nth_error_map in Hidx.
  destruct (nth_error (seq 0 k) idx) as [i|] eqn:Hi; [|discriminate].
  assert (Hik : (idx < length (seq 0 k))%nat)
    by (apply nth_error_Some; now rewrite Hi).
  rewrite length_seq in Hik.
  rewrite nth_error_seq in Hi. destruct (Nat.ltb_spec idx k); [|lia].
  injection Hi as <-. simpl in Hidx. injection Hidx as <-.
  unfold batch_indices. rewrite slice_nat by lia.
  rewrite length_firstn, length_skipn. fold n.
  replace (batch_size * (idx + 1) - batch_size * idx)%nat with batch_size by lia.
  destruct Hlow as [Hlow|[_ Hk0]]; [|lia].
  assert (batch_size * idx <= batch_size * (k - 1))%nat by (apply Nat.mul_le_mono_l; lia).
  split; [lia|]. intros Hnext.
  assert (batch_size * (idx + 1) <= batch_size * (k - 1))%nat
    by (apply Nat.mul_le_mono_l; lia).
  lia.
Qed.

End TrainingBatches.

(** ** The labels of a loaded corpus and their encoding *)

Section LabelPipeline.

Variable sample : Type.
Variable zero : sample.
Variable file : Type.
Variable librosa_load : file -> Z -> option (list sample).
Variable spectrogram : Type.
Variable melspectrogram : list sample -> Z -> spectrogram.
Variable power_to_db : spectrogram -> spectrogram.

(** C2 (as the code has it). The class index of a sample is the position of
    its label in [classes_], the ascending list of the distinct labels of the
    loaded samples, and one mapping (label to position in [classes_]) encodes
    every sample of the run.  Every sample label is in the vocabulary
    returned by the loader, and [classes_] is that vocabulary, so that the
    index is the position in it, when the directory enumeration is in
    ascending order and every class directory contributed a sample. *)
Theorem label_index_is_rank_among_sample_labels
    (path : entry file) (audios : list spectrogram) (labels class_labels : list string) :
  load_audio_files zero librosa_load melspectrogram power_to_db path
  = Ok (audios, labels, class_labels) ->
  let encoded := LabelEncoder.fit_transform labels in
  let classes := LabelEncoder.classes_ labels in
  length encoded = length labels /\
  StronglySorted LabelEncoder.lt classes /\
  (forall c, In c classes <-> In c labels) /\
  (forall c, In c labels -> In c class_labels) /\
  (forall i label, nth_error labels i = Some label ->
     nth_error encoded i = Some (LabelEncoder.index_of label classes) /\
     nth_error classes (LabelEncoder.index_of label classes) = Some label) /\
  (StronglySorted LabelEncoder.lt class_labels ->
   (forall c, In c class_labels -> In c labels) ->
   classes = class_labels /\
   forall i label, nth_error labels i = Some label ->
     exists k, nth_error encoded i = Some k /\ nth_error class_labels k = Some label).
Proof.
  intros Hload encoded classes.
  assert (Hvocab : forall c, In c labels -> In c class_labels).
  { destruct path as [f|listing]; [discriminate|].
    rewrite load_audio_files_directory in Hload. injection Hload as _ <- <-.
    intros c. apply sample_labels_in_vocabulary. }
  assert (Hlookup : forall i label, nth_error labels i = Some label ->
            nth_error encoded i = Some (LabelEncoder.index_of label classes) /\
            nth_error classes (LabelEncoder.index_of label classes) = Some label).
  { intros i label Hi.
    destruct (LabelEncoder.fit_transform_lookup labels i Hi) as [k [Hk [-> Hback]]].
    split; assumption. }
  split; [apply length_map|].
  split; [apply LabelEncoder.np_unique_sorted|].
  split; [apply LabelEncoder.in_np_unique|].
  split; [assumption|]. split; [assumption|].
  intros Hsorted Hall.
  assert (Heq : classes = class_labels).
  { apply LabelEncoder.sorted_unique;
      [apply LabelEncoder.np_unique_sorted | assumption |].
    intros c. unfold classes, LabelEncoder.classes_.
    rewrite LabelEncoder.in_np_unique. split; auto. }
  split; [assumption|]. intros i label Hi.
  destruct (Hlookup i label Hi) as [Henc Hback].
  eexists. split; [exact Henc|]. now rewrite <- Heq.
Qed.

End LabelPipeline.


(** ** The preparation cell: from the corpus to the train/test arrays *)

Section PreparationCell.

Variable sample : Type.
Variable zero_amplitude : sample.
Variable file : Type.
Variable librosa_load : file -> Z -> option (list sample).

(** Spectrograms are two-dimensional arrays of energies. *)
Variable pixel : Type.
Variable zero : pixel.
Variable melspectrogram : list sample -> Z -> ndarray2 pixel.
Variable power_to_db : ndarray2 pixel -> ndarray2 pixel.
Variable tf_image_resize : ndarray3 pixel -> nat * nat -> result (ndarray3 pixel).
Variable rng_permutation : Z -> nat -> list nat.

(** librosa's shapes: a mel spectrogram has [n_mels] rows and, with centred
    frames, [1 + len(y) // hop_length] columns; [power_to_db] keeps the
    shape. *)
Hypothesis melspectrogram_shape :
  forall (audio : list sample) (sr : Z),
    shape0 (melspectrogram audio sr) = Z.to_nat SC.AUDIO_MELS /\
    shape1 (melspectrogram audio sr)
    = Z.to_nat (1 + Z.of_nat (length audio) / SC.AUDIO_STRIDE).
Hypothesis power_to_db_shape :
  forall s : ndarray2 pixel,
    shape0 (power_to_db s) = shape0 s /\ shape1 (power_to_db s) = shape1 s.
Hypothesis tf_image_resize_shape :
  forall (image : ndarray3 pixel) (th tw : nat),
    (0 < height image)%nat -> (0 < width image)%nat ->
    (0 < th)%nat -> (0 < tw)%nat ->
    exists out,
      tf_image_resize image (th, tw) = Ok out /\
      height out = th /\ width out = tw /\ channels out = channels image.
Hypothesis rng_permutation_spec :
  forall (random_state : Z) (n : nat),
    Permutation (rng_permutation random_state n) (seq 0 n).

(** The loader at these spectrograms. *)
Definition load_corpus (path : entry file)
  : result (list (ndarray2 pixel) * list string * list string) :=
  load_audio_files zero_amplitude librosa_load melspectrogram power_to_db path.

(** The cell, statement by statement: load, encode the labels, pad,
    resize and replicate, split.  It returns
    [(X_train, X_test, y_train, y_test)]. *)
Definition preparation_cell (path : entry file)
  : result (list (ndarray3 pixel) * list (ndarray3 pixel)
            * list (list Z) * list (list Z)) :=
  loaded <- load_corpus path ;;
  let '(audios, labels, class_labels) := loaded in
  targets <- labels_categorical labels ;;
  tensors <- prepared_spectrograms zero tf_image_resize audios ;;
  train_test_split rng_permutation tensors targets (2 # 10) 42.

(** The labels of the files that decode, in visiting order. *)
Definition sample_labels (listing : list (string * entry file)) : list string :=
  map fst (filter (decodes zero_amplitude librosa_load) (corpus_files listing)).

(** *** Helper facts *)

Lemma load_corpus_directory (listing : list (string * entry file)) :
  exists audios,
    load_corpus (Directory listing)
    = Ok (audios, sample_labels listing,
          map fst (filter (fun d => isdir (snd d)) listing)) /\
    length audios = length (sample_labels listing) /\
    Forall (fun a => shape0 a = 260%nat /\ shape1 a = 161%nat) audios.
Proof.
  unfold load_corpus, sample_labels.
  rewrite load_audio_files_directory.
  exists (map fst (flat_map
                     (process_class zero_amplitude librosa_load melspectrogram power_to_db)
                     (filter (fun d => isdir (snd d)) listing))).
  split; [now rewrite samples_of_corpus, contributed_labels|].
  split.
  - rewrite samples_of_corpus.
    rewrite <- (contributed_labels zero_amplitude librosa_load melspectrogram power_to_db).
    now rewrite !length_map.
  - apply Forall_forall. intros a Ha.
    destruct (loaded_audio_origin _ _ _ _ _ _ Ha) as [audio [Hlen ->]].
    destruct (power_to_db_shape (melspectrogram audio SC.AUDIO_SAMPLE_RATE)) as [-> ->].
    destruct (melspectrogram_shape audio SC.AUDIO_SAMPLE_RATE) as [-> ->].
    rewrite Hlen. split; reflexivity.
Qed.

(** *** Properties of the cell *)

(** X23. The training targets have the width of the classifier's output
    layer exactly when every class directory contributed a sample: with
    distinct directory names, the target width never exceeds
    [num_classes = len(class_labels)], and it equals it if and only if
    every class label occurs among the sample labels. *)
Theorem targets_fit_classifier_iff_all_classes_sampled (path : entry file)
    (audios : list (ndarray2 pixel)) (labels class_labels : list string) :
  load_corpus path = Ok (audios, labels, class_labels) ->
  labels <> [] ->
  NoDup class_labels ->
  exists targets,
    labels_categorical labels = Ok targets /\
    Forall (fun t => (length t <= num_classes class_labels)%nat) targets /\
    (Forall (fun t => length t = num_classes class_labels) targets
     <-> forall c, In c class_labels -> In c labels).
Proof.
  intros Hload Hne Hnodup.
  assert (Hvocab : forall c, In c labels -> In c class_labels).
  { unfold load_corpus in Hload. destruct path as [f|listing]; [discriminate|].
    rewrite load_audio_files_directory in Hload. injection Hload as _ <- <-.
    intros c. apply sample_labels_in_vocabulary. }
  destruct (labels_categorical_shape Hne) as [targets [Htargets [Hlen Hwidth]]].
  set (classes := LabelEncoder.classes_ labels) in *.
  assert (Hcn : NoDup classes)
    by apply sorted_NoDup, LabelEncoder.np_unique_sorted.
  assert (Hincl : incl classes class_labels)
    by (intros c Hc; apply Hvocab, LabelEncoder.in_np_unique, Hc).
  assert (Hle : (length classes <= num_classes class_labels)%nat)
    by (apply NoDup_incl_length; assumption).
  assert (Hsome : exists t, In t targets)
    by (destruct targets as [|t ?]; [destruct labels; [congruence|discriminate]|
        exists t; now left]).
  rewrite Forall_forall in Hwidth.
  exists targets. split; [assumption|]. split.
  { apply Forall_forall. intros t Ht. now rewrite (Hwidth t Ht). }
  split.
  - intros Hall c Hc. rewrite Forall_forall in Hall.
    destruct Hsome as [t Ht].
    assert (Heq : length classes = length class_labels)
      by (rewrite <- (Hwidth t Ht); apply (Hall t Ht)).
    apply LabelEncoder.in_np_unique.
    refine (NoDup_length_incl Hcn _ Hincl c Hc). rewrite Heq. apply Nat.le_refl.
  - intros Hall. apply Forall_forall. intros t Ht. rewrite (Hwidth t Ht).
    apply Nat.le_antisymm; [assumption|].
    apply NoDup_incl_length; [assumption|].
    intros c Hc. apply LabelEncoder.in_np_unique, Hall, Hc.
Qed.

(** X24. The cell needs two decodable files: on a corpus with none, label
    encoding raises [ValueError] ([np.max] of an empty array), and on a
    corpus with exactly one the split raises [ValueError] (its train set
    would be empty).  In particular a root without class directories, which
    the loader accepts, fails here. *)
Theorem cell_needs_two_samples (listing : list (string * entry file)) :
  (length (sample_labels listing) < 2)%nat ->
  preparation_cell (Directory listing) = Raise ValueError.
Proof.
  intros Hfew. unfold preparation_cell.
  destruct (load_corpus_directory listing) as [audios [-> [Hlen Hshape]]].
  cbn [bind]. destruct (sample_labels listing) as [|label rest] eqn:Hlabels.
  { reflexivity. }
  destruct (labels_categorical_shape (labels := label :: rest) ltac:(discriminate))
    as [targets [-> [Htlen _]]].
  cbn [bind].
  destruct (tensor_preparer_ok zero tf_image_resize tf_image_resize_shape
              (audios := audios) (target_height := 260) (target_width := 260))
    as [tensors [Htensors [Htslen _]]].
  { destruct audios; [discriminate|discriminate]. }
  { eapply Forall_impl; [|exact Hshape]. intros a [-> ->]. split; lia. }
  { lia. }
  { lia. }
  unfold prepared_spectrograms. rewrite Htensors. cbn [bind].
  apply train_test_split_too_small. rewrite Htslen, Hlen. exact Hfew.
Qed.

(** X25. Every spectrogram that the loader returns has 260 rows and 161
    columns (a 32000-sample clip at a hop of 200), so on the loader's output
    the padding step changes nothing: each padded array has the shape and
    the entries of the spectrogram it was made from. *)
Theorem padding_is_identity_on_a_loaded_corpus (listing : list (string * entry file)) :
  sample_labels listing <> [] ->
  exists audios labels class_labels padded,
    load_corpus (Directory listing) = Ok (audios, labels, class_labels) /\
    Forall (fun a => shape0 a = 260%nat /\ shape1 a = 161%nat) audios /\
    audios_padded zero audios = Ok padded /\
    Forall2 (fun a p =>
               shape0 p = shape0 a /\ shape1 p = shape1 a /\
               forall i j, (i < shape0 a)%nat -> (j < shape1 a)%nat ->
                           at2 p i j = at2 a i j)
      audios padded.
Proof.
  intros Hne.
  destruct (load_corpus_directory listing) as [audios [Hload [Hlen Hshape]]].
  destruct (audios_padded_of_uniform zero (audios := audios) (h := 260) (w := 161))
    as [padded [Hpad Hkept]]; [|assumption|].
  { destruct audios; [|discriminate].
    destruct (sample_labels listing); [congruence|discriminate]. }
  do 3 eexists. exists padded. split; [exact Hload|]. split; [assumption|].
  split; [assumption|].
  clear Hpad Hload Hlen Hne. revert Hshape.
  induction Hkept as [|a p audios' padded' [H0 [H1 Hat]] _ IH];
    intros Hshape; constructor.
  - inversion Hshape as [|? ? [Ha0 Ha1] _]; subst.
    rewrite Ha0, Ha1. auto.
  - apply IH. now inversion Hshape.
Qed.

(** X26. On a corpus with at least two decodable files the cell returns:
    the train and test parts together hold one tensor and one target per
    decodable file, tensors and targets are paired part by part, every
    tensor has shape (260, 260, 3), and every target has one entry per
    distinct sample label. *)
Theorem cell_prepares_a_corpus (listing : list (string * entry file)) :
  (2 <= length (sample_labels listing))%nat ->
  exists X_train X_test y_train y_test,
    preparation_cell (Directory listing) = Ok (X_train, X_test, y_train, y_test) /\
    (length X_train + length X_test = length (sample_labels listing))%nat /\
    length y_train = length X_train /\
    length y_test = length X_test /\
    Forall (fun t => height t = 260%nat /\ width t = 260%nat /\ channels t = 3%nat)
      (X_train ++ X_test) /\
    Forall (fun t => length t = length (LabelEncoder.classes_ (sample_labels listing)))
      (y_train ++ y_test).
Proof.
  intros Hmany. unfold preparation_cell.
  destruct (load_corpus_directory listing) as [audios [-> [Hlen Hshape]]].
  cbn [bind].
  destruct (labels_categorical_shape (labels := sample_labels listing))
    as [targets [-> [Htlen Hwidth]]].
  { destruct (sample_labels listing); [simpl in Hmany; lia|discriminate]. }
  cbn [bind].
  destruct (tensor_preparer_ok zero tf_image_resize tf_image_resize_shape
              (audios := audios) (target_height := 260) (target_width := 260))
    as [tensors [Htensors [Htslen Htshape]]].
  { destruct audios; [|discriminate]. simpl in Hlen. lia. }
  { eapply Forall_impl; [|exact Hshape]. intros a [-> ->]. split; lia. }
  { lia. }
  { lia. }
  unfold prepared_spectrograms. rewrite Htensors. cbn [bind].
  destruct (train_test_split_fifth rng_permutation rng_permutation_spec
              tensors targets 42)
    as [X_train [X_test [y_train [y_test [Hsplit [Hsum [Hytr [Hyte [HinX Hiny]]]]]]]]].
  { congruence. }
  { lia. }
  exists X_train, X_test, y_train, y_test.
  split; [exact Hsplit|]. split; [lia|]. split; [assumption|]. split; [assumption|].
  rewrite Forall_forall in Htshape, Hwidth.
  split; apply Forall_forall; intros t Ht; auto.
Qed.

End PreparationCell.


(** ** Concrete corpora, batches and runs *)

Module Scenario.

(** A file is what decoding it yields ([None]: the decoder raises); the
    spectrogram of a waveform is reduced to its sample count. *)
Definition toy_file : Type := option (list Z).

Definition toy_load (f : toy_file) (sr : Z) : option (list Z) := f.

Definition toy_mel (audio : list Z) (sr : Z) : list Z := [Z.of_nat (length audio)].

Definition toy_db (s : list Z) : list Z := s.

Definition wav (samples : list Z) : entry toy_file := RegularFile (Some samples).

Definition corrupt : entry toy_file := RegularFile None.

Definition normalize (f : toy_file) (duration sr : Z) : option (list Z * Z) :=
  load_and_pad_audio 0 toy_load f duration sr.

Definition load (root : entry toy_file)
  : result (list (list Z) * list string * list string) :=
  load_audio_files 0 toy_load toy_mel toy_db root.

(** *** Normaliser *)

Example pad_three_to_eight :
  normalize (Some [1; 2; 3]) 1 8 = Some ([0; 0; 1; 2; 3; 0; 0; 0], 8).
Proof. reflexivity. Qed.

Example trim_seven_to_four :
  normalize (Some [1; 2; 3; 4; 5; 6; 7]) 2 2 = Some ([2; 3; 4; 5], 2).
Proof. reflexivity. Qed.

Example undecodable_file : normalize None 2 16000 = None.
Proof. reflexivity. Qed.

Lemma normalized_length_exact_witness :
  exists out,
    normalize (Some [1; 2; 3]) SC.AUDIO_CLIP_DURATION SC.AUDIO_SAMPLE_RATE
    = Some (out, SC.AUDIO_SAMPLE_RATE) /\
    Z.of_nat (length out) = SC.AUDIO_CLIP_DURATION * SC.AUDIO_SAMPLE_RATE.
Proof.
  apply (normalized_length_exact 0 toy_load (Some [1; 2; 3])
           SC.AUDIO_CLIP_DURATION SC.AUDIO_SAMPLE_RATE (audio := [1; 2; 3])).
  - unfold SC.AUDIO_CLIP_DURATION, SC.AUDIO_SAMPLE_RATE. lia.
  - reflexivity.
Defined.

Lemma normalize_idempotent_witness :
  normalize (Some [5; 6; 7; 8]) 2 2 = Some ([5; 6; 7; 8], 2) /\
  normalize (Some [1; 2; 3]) 2 2 = Some ([1; 2; 3; 0], 2) /\
  normalize (Some [1; 2; 3; 0]) 2 2 = Some ([1; 2; 3; 0], 2).
Proof.
  split; [|split].
  - apply (normalize_idempotent 0 toy_load (Some [5; 6; 7; 8]) 2 2 (audio := [5; 6; 7; 8]));
      reflexivity.
  - reflexivity.
  - apply (proj2 (normalize_idempotent 0 toy_load (Some [1; 2; 3]) 2 2 eq_refl)
             [1; 2; 3; 0] 2 (Some [1; 2; 3; 0])); reflexivity.
Defined.

Lemma normalize_frame_witness :
  (exists out,
     pad_or_trim 0 [1; 2; 3] 1 8 = Ok out /\
     nth 2 out 0 = 1 /\ nth 4 out 0 = 3 /\ nth 1 out 0 = 0 /\ nth 5 out 0 = 0) /\
  (exists out,
     pad_or_trim 0 [1; 2; 3; 4; 5; 6; 7] 2 2 = Ok out /\
     nth 0 out 0 = 2 /\ nth 3 out 0 = 5 /\ Z.of_nat (length out) = 4).
Proof.
  split.
  - destruct (proj1 (normalize_frame 0 [1; 2; 3] 1 8) ltac:(simpl; lia))
      as [out [Hout [_ [_ [_ [Hcopy [Hleft Hright]]]]]]].
    exists out. split; [exact Hout|].
    split; [exact (Hcopy 0%nat ltac:(simpl; lia))|].
    split; [exact (Hcopy 2%nat ltac:(simpl; lia))|].
    split; [exact (Hleft 1%nat ltac:(simpl; lia)) | exact (Hright 5%nat ltac:(simpl; lia))].
  - destruct (proj2 (normalize_frame 0 [1; 2; 3; 4; 5; 6; 7] 2 2) ltac:(simpl; lia))
      as [out [Hout [_ Hslice]]].
    destruct (Hslice ltac:(lia)) as [Hlen [_ [_ Hnth]]].
    exists out. split; [exact Hout|].
    split; [exact (Hnth 0%nat ltac:(simpl; lia))|].
    split; [exact (Hnth 3%nat ltac:(simpl; lia)) | exact Hlen].
Defined.

(** *** Corpus loader and label encoding *)

(** Two classes, but every file of the second fails to decode. *)
Definition silent_class_corpus : entry toy_file :=
  Directory
    [("rain"%string, Directory [("a.wav"%string, wav [1; 2; 3])]);
     ("thunder"%string, Directory [("b.wav"%string, corrupt)])].

(** C1 at a corpus with a class directory that contributes no sample: the
    loader returns a vocabulary of two classes (the width [build_model] gives
    the classifier output), and label encoding returns targets of width
    one. *)
Theorem silent_class_narrows_targets :
  load silent_class_corpus
  = Ok ([[32000]], ["rain"%string], ["rain"%string; "thunder"%string]) /\
  labels_categorical ["rain"%string] = Ok [[1]] /\
  num_classes ["rain"%string; "thunder"%string] = 2%nat /\
  length [1] <> num_classes ["rain"%string; "thunder"%string].
Proof.
  split; [vm_compute; reflexivity|]. split; [reflexivity|].
  split; [reflexivity|discriminate].
Qed.

(** The first class in enumeration order contributes no sample: the only
    sample is encoded as 0, and its class is at position 1 of the
    vocabulary. *)
Definition silent_first_class_corpus : entry toy_file :=
  Directory
    [("hail"%string, Directory [("h.wav"%string, corrupt)]);
     ("rain"%string, Directory [("r.wav"%string, wav [1])])].

Lemma index_is_not_vocabulary_position :
  load silent_first_class_corpus
  = Ok ([[32000]], ["rain"%string], ["hail"%string; "rain"%string]) /\
  LabelEncoder.fit_transform ["rain"%string] = [0%nat] /\
  LabelEncoder.index_of "rain"%string ["hail"%string; "rain"%string] = 1%nat.
Proof. split; [vm_compute; reflexivity|]. split; reflexivity. Qed.

(** An enumeration that is not in ascending order: the indices follow the
    sorted labels, not the enumeration. *)
Definition unsorted_corpus : entry toy_file :=
  Directory
    [("thunder"%string, Directory [("t.wav"%string, wav [1])]);
     ("rain"%string, Directory [("r.wav"%string, wav [2])])].

Example unsorted_enumeration_is_reindexed :
  load unsorted_corpus
  = Ok ([[32000]; [32000]], ["thunder"%string; "rain"%string],
        ["thunder"%string; "rain"%string]) /\
  LabelEncoder.fit_transform ["thunder"%string; "rain"%string] = [1%nat; 0%nat].
Proof. split; [vm_compute; reflexivity|reflexivity]. Qed.

Definition two_class_corpus : entry toy_file :=
  Directory
    [("README.md"%string, corrupt);
     ("rain"%string, Directory [("a.wav"%string, wav [1]); ("b.wav"%string, wav [2; 3])]);
     ("thunder"%string, Directory [("c.wav"%string, wav [4])])].

Lemma label_index_witness :
  LabelEncoder.classes_ ["rain"%string; "rain"%string; "thunder"%string]
  = ["rain"%string; "thunder"%string] /\
  length (LabelEncoder.fit_transform ["rain"%string; "rain"%string; "thunder"%string])
  = 3%nat.
Proof.
  assert (Hload : load two_class_corpus
                  = Ok ([[32000]; [32000]; [32000]],
                        ["rain"%string; "rain"%string; "thunder"%string],
                        ["rain"%string; "thunder"%string]))
    by (vm_compute; reflexivity).
  destruct (label_index_is_rank_among_sample_labels 0 toy_load toy_mel toy_db
              two_class_corpus Hload) as [Hlen [_ [_ [_ [_ Hvocab]]]]].
  split; [|exact Hlen]. apply Hvocab.
  - repeat constructor.
  - simpl. intuition.
Defined.

(** A root directory that holds a file and no class directory. *)
Lemma empty_corpus_witness :
  load (Directory [("notes.txt"%string, wav [1; 2])]) = Ok ([], [], []).
Proof.
  apply (empty_corpus_returns_normally 0 toy_load toy_mel toy_db
           [("notes.txt"%string, wav [1; 2])]).
  reflexivity.
Defined.

Lemma empty_root_returns_normally :
  load (Directory []) = Ok ([], [], []) /\
  ~ (exists e, load (Directory []) = Raise e).
Proof. split; [reflexivity|]. intros [e He]. discriminate He. Qed.

(** Ten files in two classes, the third of which is corrupt. *)
Definition ten_file_corpus : list (string * entry toy_file) :=
  [("rain"%string,
    Directory [("r1.wav"%string, wav [1]); ("r2.wav"%string, wav [2]);
               ("r3.wav"%string, corrupt); ("r4.wav"%string, wav [4]);
               ("r5.wav"%string, wav [5])]);
   ("thunder"%string,
    Directory [("t1.wav"%string, wav [6]); ("t2.wav"%string, wav [7]);
               ("t3.wav"%string, wav [8]); ("t4.wav"%string, wav [9]);
               ("t5.wav"%string, wav [10])])].

Lemma one_corrupt_file_witness :
  exists audios labels class_labels,
    load (Directory ten_file_corpus) = Ok (audios, labels, class_labels) /\
    length audios = 9%nat /\
    length labels = 9%nat /\
    labels = repeat "rain"%string 4 ++ repeat "thunder"%string 5.
Proof.
  apply (one_corrupt_file_skipped 0 toy_load toy_mel toy_db ten_file_corpus
           [("rain"%string, wav [1]); ("rain"%string, wav [2])]
           [("rain"%string, wav [4]); ("rain"%string, wav [5]);
            ("thunder"%string, wav [6]); ("thunder"%string, wav [7]);
            ("thunder"%string, wav [8]); ("thunder"%string, wav [9]);
            ("thunder"%string, wav [10])]
           ("rain"%string, corrupt)).
  - reflexivity.
  - reflexivity.
  - vm_compute. reflexivity.
  - vm_compute. reflexivity.
Defined.

(** *** Tensor preparer *)

(** A resize that satisfies the shape contract: it samples the nearest
    source pixel above and to the left, and refuses images and target sizes
    with a zero side. *)
Definition toy_resize (image : ndarray3 Z) (size : nat * nat) : result (ndarray3 Z) :=
  if (height image =? 0)%nat || (width image =? 0)%nat
     || (fst size =? 0)%nat || (snd size =? 0)%nat
  then Raise InvalidArgumentError
  else Ok {| height := fst size; width := snd size; channels := channels image;
             at3 := fun i j c =>
                      at3 image (i * height image / fst size)%nat
                        (j * width image / snd size)%nat c |}.

Lemma toy_resize_shape (image : ndarray3 Z) (th tw : nat) :
  (0 < height image)%nat -> (0 < width image)%nat -> (0 < th)%nat -> (0 < tw)%nat ->
  exists out,
    toy_resize image (th, tw) = Ok out /\
    height out = th /\ width out = tw /\ channels out = channels image.
Proof.
  intros Hh Hw Hth Htw. unfold toy_resize. simpl.
  destruct (Nat.eqb_spec (height image) 0); [lia|].
  destruct (Nat.eqb_spec (width image) 0); [lia|].
  destruct (Nat.eqb_spec th 0); [lia|].
  destruct (Nat.eqb_spec tw 0); [lia|].
  simpl. eexists. split; [reflexivity|]. simpl. auto.
Defined.

Definition short_clip : ndarray2 Z :=
  {| shape0 := 2; shape1 := 3; at2 := fun i j => Z.of_nat (i + j) |}.

Definition long_clip : ndarray2 Z :=
  {| shape0 := 2; shape1 := 5; at2 := fun i j => Z.of_nat (i * j) |}.

Lemma tensor_preparer_witness :
  exists tensors,
    prepared_spectrograms 0 toy_resize [short_clip; long_clip] = Ok tensors /\
    length tensors = 2%nat /\
    Forall (fun t => height t = 260%nat /\ width t = 260%nat /\ channels t = 3%nat)
      tensors /\
    Forall (fun t => forall i j c c' : nat, (c < 3)%nat -> (c' < 3)%nat ->
                     at3 t i j c = at3 t i j c') tensors.
Proof.
  apply (tensor_preparer_shapes 0 toy_resize toy_resize_shape
           (audios := [short_clip; long_clip])
           (target_height := 260) (target_width := 260)).
  - discriminate.
  - repeat constructor.
  - apply Nat.lt_0_succ.
  - apply Nat.lt_0_succ.
Defined.

Example empty_batch_raises :
  prepared_spectrograms 0 toy_resize [] = Raise ValueError.
Proof. reflexivity. Qed.

(** *** Splitter *)

Definition toy_permutation (random_state : Z) (n : nat) : list nat := rev (seq 0 n).

Lemma toy_permutation_spec (random_state : Z) (n : nat) :
  Permutation (toy_permutation random_state n) (seq 0 n).
Proof. apply Permutation_sym, Permutation_rev. Defined.

Lemma split_witness :
  exists ind_train ind_test,
    train_test_split toy_permutation (seq 0 10) (seq 100 10) (2 # 10) 42
    = Ok (safe_indexing (seq 0 10) ind_train, safe_indexing (seq 0 10) ind_test,
          safe_indexing (seq 100 10) ind_train, safe_indexing (seq 100 10) ind_test) /\
    Permutation (ind_train ++ ind_test) (seq 0 10) /\
    (forall i, In i ind_train -> ~ In i ind_test) /\
    length ind_test = 2%nat.
Proof.
  destruct (split_is_partition toy_permutation toy_permutation_spec
              (seq 0 10) (seq 100 10) 42 eq_refl ltac:(simpl; lia))
    as [ind_train [ind_test [_ [Hsplit [Hperm [Hdisj [_ [_ [_ [_ [_ [_ Hten]]]]]]]]]]]].
  exists ind_train, ind_test.
  split; [exact Hsplit|]. split; [exact Hperm|]. split; [exact Hdisj|].
  exact (Hten eq_refl).
Defined.

(** Eleven samples: three go to the test set, and [round(11 * 0.2)] is 2. *)
Lemma eval_size_is_not_round :
  train_test_split toy_permutation (seq 0 11) (seq 0 11) (2 # 10) 42
  = Ok ([7; 6; 5; 4; 3; 2; 1; 0], [10; 9; 8],
        [7; 6; 5; 4; 3; 2; 1; 0], [10; 9; 8])%nat /\
  length [10; 9; 8]%nat = 3%nat /\
  py_round ((2 # 10) * inject_Z 11) = 2.
Proof. split; [vm_compute; reflexivity|]. split; reflexivity. Qed.

Example single_sample_does_not_split :
  train_test_split toy_permutation [7%nat] [7%nat] (2 # 10) 42 = Raise ValueError.
Proof. reflexivity. Qed.

(** *** Training loop *)

(** A classifier whose state counts the epochs it was trained for and whose
    evaluation loss is 0.9 after the first epoch and 0.85 ever after. *)
Definition toy_train (epoch : nat) (lr : Q) (w : nat) : nat := S w.

Definition toy_evaluate (w : nat) : Q :=
  if (w =? 1)%nat then 9 # 10 else 85 # 100.

Definition flat_run : trainer nat :=
  fit toy_train toy_evaluate (notebook_config) 0%nat (1 # 1000).

Example flat_run_history :
  val_loss_history flat_run = (9 # 10) :: repeat (85 # 100) 21.
Proof. vm_compute. reflexivity. Qed.

Example flat_run_restores_second_epoch :
  model_weights (model flat_run) = 2%nat /\
  stop_training (model flat_run) = true /\
  saved_model (checkpoint flat_run) = Some 2%nat /\
  es_stopped_epoch (early_stopping flat_run) = 21%nat.
Proof. vm_compute. repeat split; reflexivity. Qed.

Lemma early_stop_witness :
  fit_outcome flat_run = EarlyStopped /\
  es_stopped_epoch (early_stopping flat_run) = 21%nat /\
  length (val_loss_history flat_run) = 22%nat /\
  es_best_epoch (early_stopping flat_run) = 1%nat /\
  model_weights (model flat_run) = 2%nat /\
  saved_model (checkpoint flat_run) = Some (model_weights (model flat_run)) /\
  toy_evaluate (model_weights (model flat_run)) = 85 # 100.
Proof.
  unfold flat_run.
  assert (Hhist : val_loss_history (fit toy_train toy_evaluate notebook_config 0%nat (1 # 1000))
                  = (9 # 10) :: repeat (85 # 100) 21)
    by (vm_compute; reflexivity).
  destruct (early_stop_restores_best toy_train toy_evaluate notebook_config
              0%nat (1 # 1000) (b := 1) (best_loss := 85 # 100))
    as [Hout [Hstop [Hlen [Hbest [Hw [_ [Hsaved Heval]]]]]]].
  - apply Nat.le_succ_l, Nat.lt_0_succ.
  - rewrite Hhist. reflexivity.
  - rewrite Hhist. intros j v Hj.
    destruct j as [|j]; [|exfalso; apply Nat.succ_lt_mono in Hj; inversion Hj].
    intros Hv. injection Hv as <-. reflexivity.
  - rewrite Hhist. intros d [Hd1 Hd20].
    exists (85 # 100). split; [|apply Qle_refl].
    change (nth_error (repeat (85 # 100) 21) d = Some (85 # 100)).
    apply nth_error_repeat. apply Nat.lt_succ_r in Hd20.
    exact (Nat.lt_le_trans _ _ _ Hd20 (Nat.le_refl 21)).
  - split; [exact Hout|]. split; [exact Hstop|]. split; [exact Hlen|].
    split; [exact Hbest|]. split; [|split; [exact Hsaved | exact Heval]].
    rewrite Hw. vm_compute. reflexivity.
Defined.

(** *** Further scenarios: normaliser *)

Lemma nonpositive_target_witness :
  normalize (Some [1; 2; 3]) 0 16000 = Some ([], 16000) /\
  normalize (Some [1; 2; 3]) (-1) 16000 = Some ([], 16000).
Proof.
  split.
  - apply (nonpositive_target_gives_empty_waveform 0 toy_load (Some [1; 2; 3]) 0 16000
             (audio := [1; 2; 3])); [simpl; lia|reflexivity].
  - apply (nonpositive_target_gives_empty_waveform 0 toy_load (Some [1; 2; 3]) (-1) 16000
             (audio := [1; 2; 3])); [simpl; lia|reflexivity].
Defined.

Lemma trim_undoes_pad_witness :
  exists padded,
    pad_or_trim 0 [1; 2; 3] 1 8 = Ok padded /\
    pad_or_trim 0 padded 3 1 = Ok [1; 2; 3].
Proof.
  apply (trim_undoes_pad 0 [1; 2; 3] 1 8 3 1); [simpl; lia|reflexivity].
Defined.

Lemma trim_discards_witness :
  exists head out tail,
    pad_or_trim 0 [1; 2; 3; 4; 5; 6; 7] 2 2 = Ok out /\
    [1; 2; 3; 4; 5; 6; 7] = head ++ out ++ tail /\
    Z.of_nat (length out) = 2 * 2 /\
    Z.of_nat (length head) = (Z.of_nat (length [1; 2; 3; 4; 5; 6; 7]) - 2 * 2) / 2 /\
    (length head <= length tail <= S (length head))%nat.
Proof.
  apply (trim_discards_both_ends 0 [1; 2; 3; 4; 5; 6; 7] 2 2). simpl. lia.
Defined.

(** *** Further scenarios: loader and labels *)

Lemma parallel_lists_witness :
  length [[32000]; [32000]; [32000]]
  = length ["rain"%string; "rain"%string; "thunder"%string].
Proof.
  apply (audios_and_labels_are_parallel 0 toy_load toy_mel toy_db two_class_corpus
           (class_labels := ["rain"%string; "thunder"%string])).
  vm_compute. reflexivity.
Defined.

Lemma full_clip_witness :
  Forall (fun a => exists audio : list Z,
            Z.of_nat (length audio) = 32000 /\
            a = toy_db (toy_mel audio SC.AUDIO_SAMPLE_RATE))
    [[32000]; [32000]; [32000]].
Proof.
  apply (every_spectrogram_is_of_a_full_clip 0 toy_load toy_mel toy_db two_class_corpus
           (labels := ["rain"%string; "rain"%string; "thunder"%string])
           (class_labels := ["rain"%string; "thunder"%string])).
  vm_compute. reflexivity.
Defined.

Lemma one_hot_targets_witness :
  exists targets,
    labels_categorical ["thunder"%string; "rain"%string; "thunder"%string] = Ok targets /\
    length targets = 3%nat /\
    Forall (fun t => length t = 2%nat) targets.
Proof.
  destruct (labels_categorical_one_hot
              (labels := ["thunder"%string; "rain"%string; "thunder"%string])
              ltac:(discriminate)) as [targets [Htargets [Hlen [Hwidth _]]]].
  exists targets. split; [exact Htargets|]. split; [exact Hlen|exact Hwidth].
Defined.

Lemma equal_index_witness :
  nth_error (LabelEncoder.fit_transform ["thunder"%string; "rain"%string; "thunder"%string]) 0
  = nth_error (LabelEncoder.fit_transform ["thunder"%string; "rain"%string; "thunder"%string]) 2.
Proof.
  apply (proj2 (equal_index_iff_equal_label
                  ["thunder"%string; "rain"%string; "thunder"%string] 0 2
                  (label_i := "thunder"%string) (label_j := "thunder"%string)
                  eq_refl eq_refl)).
  reflexivity.
Defined.

Lemma label_set_witness :
  LabelEncoder.classes_ ["thunder"%string; "rain"%string; "thunder"%string]
  = LabelEncoder.classes_ ["rain"%string; "thunder"%string].
Proof.
  apply (classes_depend_on_the_label_set
           ["thunder"%string; "rain"%string; "thunder"%string]
           ["rain"%string; "thunder"%string]).
  intros c. simpl. tauto.
Defined.

(** *** Further scenarios: tensors *)

Lemma padding_content_witness :
  exists padded max_height max_length,
    audios_padded 0 [short_clip; long_clip] = Ok padded /\
    Forall2 (fun audio p =>
               shape0 p = max_height /\ shape1 p = max_length /\
               forall i j, at2 p i j
                           = if (i <? shape0 audio)%nat && (j <? shape1 audio)%nat
                             then at2 audio i j else 0)
      [short_clip; long_clip] padded /\
    In max_height (map (@shape0 Z) [short_clip; long_clip]) /\
    In max_length (map (@shape1 Z) [short_clip; long_clip]) /\
    forall audio, In audio [short_clip; long_clip] ->
      (shape0 audio <= max_height)%nat /\ (shape1 audio <= max_length)%nat.
Proof.
  apply (padding_keeps_content 0 (audios := [short_clip; long_clip])). discriminate.
Defined.

Lemma resized_channels_witness :
  exists padded tensors,
    audios_padded 0 [short_clip; long_clip] = Ok padded /\
    tensor_preparer 0 toy_resize [short_clip; long_clip] (260, 260)%nat = Ok tensors /\
    Forall2 (fun p t =>
               exists resized,
                 toy_resize (newaxis p) (260, 260)%nat = Ok resized /\
                 forall i j c : nat, (c < 3)%nat -> at3 t i j c = at3 resized i j 0%nat)
      padded tensors.
Proof.
  apply (tensors_replicate_the_resized_spectrogram 0 toy_resize toy_resize_shape
           (audios := [short_clip; long_clip])
           (target_height := 260) (target_width := 260)).
  - discriminate.
  - repeat constructor.
  - apply Nat.lt_0_succ.
  - apply Nat.lt_0_succ.
Defined.

(** *** Further scenarios: splitter and batches *)

Lemma split_pairs_witness :
  exists X_train X_test y_train y_test,
    train_test_split toy_permutation (seq 0 10) (seq 100 10) (2 # 10) 42
    = Ok (X_train, X_test, y_train, y_test) /\
    length X_train = length y_train /\
    length X_test = length y_test /\
    Permutation (combine X_train y_train ++ combine X_test y_test)
      (combine (seq 0 10) (seq 100 10)).
Proof.
  apply (split_keeps_pairs_together toy_permutation toy_permutation_spec
           (seq 0 10) (seq 100 10) 42); [reflexivity|simpl; lia].
Defined.

Lemma split_sizes_witness :
  exists X_train X_test y_train y_test,
    train_test_split toy_permutation (seq 0 11) (seq 100 11) (2 # 10) 42
    = Ok (X_train, X_test, y_train, y_test) /\
    (length X_train + length X_test = 11)%nat /\
    (1 <= length X_test <= length X_train)%nat /\
    (11 <= 5 * length X_test < 11 + 5)%nat.
Proof.
  apply (split_sizes toy_permutation toy_permutation_spec
           (seq 0 11) (seq 100 11) 42); [reflexivity|simpl; lia].
Defined.

Example seventy_samples_in_three_batches :
  map (@length nat) (epoch_batches (toy_permutation 42 70) 32) = [32; 32; 6]%nat.
Proof. vm_compute. reflexivity. Qed.

Lemma batches_witness :
  concat (epoch_batches (toy_permutation 42 70) 32) = toy_permutation 42 70 /\
  length (epoch_batches (toy_permutation 42 70) 32) = 3%nat.
Proof.
  destruct (epoch_batches_partition (toy_permutation 42 70) (batch_size := 32)
              ltac:(lia)) as [Hconcat [Hlen _]].
  split; [exact Hconcat|exact Hlen].
Defined.

(** *** Further scenarios: classifier *)


(** *** Further scenarios: training loop *)

Lemma early_stop_soundness_witness :
  exists e best,
    es_best_epoch (early_stopping flat_run) = e /\
    es_stopped_epoch (early_stopping flat_run) = (e + 20)%nat /\
    length (val_loss_history flat_run) = S (e + 20) /\
    nth_error (val_loss_history flat_run) e = Some best /\
    (forall j v, nth_error (val_loss_history flat_run) j = Some v -> (best <= v)%Q) /\
    (forall j v, (j < e)%nat ->
                 nth_error (val_loss_history flat_run) j = Some v -> (best < v)%Q) /\
    model_weights (model flat_run)
    = model_weights (model (run toy_train toy_evaluate notebook_config 0%nat (1 # 1000) (S e))) /\
    saved_model (checkpoint flat_run) = Some (model_weights (model flat_run)) /\
    toy_evaluate (model_weights (model flat_run)) = best.
Proof.
  unfold flat_run.
  apply (early_stop_implies_restored_best toy_train toy_evaluate notebook_config
           0%nat (1 # 1000)).
  - apply Nat.le_succ_l, Nat.lt_0_succ.
  - vm_compute. reflexivity.
Defined.

(** A budget of five epochs with losses that keep falling. *)
Definition short_config : fit_config :=
  {| epochs := 5; es_patience := 20; rlr_patience := 10;
     rlr_factor := 1 # 10; rlr_min_lr := 1 # 100000 |}.

Definition falling_loss (w : nat) : Q := 1 # Pos.of_nat w.

Definition short_run : trainer nat :=
  fit toy_train falling_loss short_config 0%nat (1 # 1000).

Example short_run_values :
  val_loss_history short_run = [1 # 1; 1 # 2; 1 # 3; 1 # 4; 1 # 5] /\
  model_weights (model short_run) = 5%nat /\
  saved_model (checkpoint short_run) = Some 5%nat.
Proof. vm_compute. repeat split; reflexivity. Qed.

(** With the flat losses the budget of five epochs ends before the patience
    does: the classifier keeps the fifth epoch's weights and the checkpoint
    the second epoch's. *)
Definition short_flat_run : trainer nat :=
  fit toy_train toy_evaluate short_config 0%nat (1 # 1000).

Example short_flat_run_values :
  model_weights (model short_flat_run) = 5%nat /\
  saved_model (checkpoint short_flat_run) = Some 2%nat.
Proof. vm_compute. split; reflexivity. Qed.



Example learning_rate_is_reduced_on_the_plateau :
  learning_rate (model (run toy_train toy_evaluate notebook_config 0%nat (1 # 1000) 11))
  = (1 # 1000)%Q /\
  (learning_rate (model (run toy_train toy_evaluate notebook_config 0%nat (1 # 1000) 12))
   == 1 # 10000)%Q.
Proof. split; vm_compute; reflexivity. Qed.

(** *** Further scenarios: the preparation cell *)

(** Spectrograms of the librosa shape whose entries are made up. *)
Definition toy_mel2 (audio : list Z) (sr : Z) : ndarray2 Z :=
  {| shape0 := Z.to_nat SC.AUDIO_MELS;
     shape1 := Z.to_nat (1 + Z.of_nat (length audio) / SC.AUDIO_STRIDE);
     at2 := fun i j => nth (j * 200) audio 0 + Z.of_nat i |}.

Definition toy_db2 (s : ndarray2 Z) : ndarray2 Z :=
  {| shape0 := shape0 s; shape1 := shape1 s; at2 := fun i j => at2 s i j - 80 |}.

Lemma toy_mel2_shape (audio : list Z) (sr : Z) :
  shape0 (toy_mel2 audio sr) = Z.to_nat SC.AUDIO_MELS /\
  shape1 (toy_mel2 audio sr) = Z.to_nat (1 + Z.of_nat (length audio) / SC.AUDIO_STRIDE).
Proof. split; reflexivity. Qed.

Lemma toy_db2_shape (s : ndarray2 Z) :
  shape0 (toy_db2 s) = shape0 s /\ shape1 (toy_db2 s) = shape1 s.
Proof. split; reflexivity. Qed.

Definition toy_cell (root : entry toy_file)
  : result (list (ndarray3 Z) * list (ndarray3 Z) * list (list Z) * list (list Z)) :=
  preparation_cell 0 toy_load 0 toy_mel2 toy_db2 toy_resize toy_permutation root.

Definition one_file_corpus : list (string * entry toy_file) :=
  [("rain"%string, Directory [("a.wav"%string, wav [1; 2; 3]); ("b.wav"%string, corrupt)]);
   ("thunder"%string, Directory [])].

Lemma cell_failure_witness :
  toy_cell (Directory []) = Raise ValueError /\
  toy_cell (Directory one_file_corpus) = Raise ValueError.
Proof.
  split.
  - apply (cell_needs_two_samples 0 toy_load 0 toy_mel2 toy_db2 toy_resize toy_permutation
             toy_mel2_shape toy_db2_shape toy_resize_shape []).
    apply Nat.ltb_lt. vm_compute. reflexivity.
  - apply (cell_needs_two_samples 0 toy_load 0 toy_mel2 toy_db2 toy_resize toy_permutation
             toy_mel2_shape toy_db2_shape toy_resize_shape one_file_corpus).
    apply Nat.ltb_lt. vm_compute. reflexivity.
Defined.

Lemma cell_targets_witness :
  exists targets,
    labels_categorical (sample_labels 0 toy_load ten_file_corpus) = Ok targets /\
    Forall (fun t => length t = num_classes ["rain"%string; "thunder"%string]) targets.
Proof.
  assert (Hlabels : sample_labels 0 toy_load ten_file_corpus
                    = repeat "rain"%string 4 ++ repeat "thunder"%string 5)
    by (vm_compute; reflexivity).
  destruct (load_corpus_directory 0 toy_load toy_mel2 toy_db2 toy_mel2_shape toy_db2_shape
              ten_file_corpus) as [audios [Hload _]].
  destruct (targets_fit_classifier_iff_all_classes_sampled 0 toy_load toy_mel2 toy_db2
              (Directory ten_file_corpus) Hload)
    as [targets [Htargets [_ Hiff]]].
  - rewrite Hlabels. discriminate.
  - repeat constructor; simpl; intuition discriminate.
  - exists targets. split; [exact Htargets|]. apply Hiff.
    rewrite Hlabels. simpl. intuition.
Defined.

Lemma padding_identity_witness :
  exists audios labels class_labels padded,
    load_corpus 0 toy_load toy_mel2 toy_db2 (Directory ten_file_corpus)
    = Ok (audios, labels, class_labels) /\
    Forall (fun a => shape0 a = 260%nat /\ shape1 a = 161%nat) audios /\
    audios_padded 0 audios = Ok padded /\
    Forall2 (fun a p =>
               shape0 p = shape0 a /\ shape1 p = shape1 a /\
               forall i j, (i < shape0 a)%nat -> (j < shape1 a)%nat ->
                           at2 p i j = at2 a i j)
      audios padded.
Proof.
  apply (padding_is_identity_on_a_loaded_corpus 0 toy_load 0 toy_mel2 toy_db2
           toy_mel2_shape toy_db2_shape ten_file_corpus).
  assert (Hlabels : sample_labels 0 toy_load ten_file_corpus
                    = repeat "rain"%string 4 ++ repeat "thunder"%string 5)
    by (vm_compute; reflexivity).
  rewrite Hlabels. discriminate.
Defined.

Lemma cell_success_witness :
  exists X_train X_test y_train y_test,
    toy_cell (Directory ten_file_corpus) = Ok (X_train, X_test, y_train, y_test) /\
    (length X_train + length X_test
     = length (sample_labels 0%Z toy_load ten_file_corpus))%nat /\
    length y_train = length X_train /\
    length y_test = length X_test /\
    Forall (fun t => height t = 260%nat /\ width t = 260%nat /\ channels t = 3%nat)
      (X_train ++ X_test) /\
    Forall (fun t => length t
                     = length (LabelEncoder.classes_
                                 (sample_labels 0 toy_load ten_file_corpus)))
      (y_train ++ y_test).
Proof.
  apply (cell_prepares_a_corpus 0 toy_load 0 toy_mel2 toy_db2 toy_resize toy_permutation
           toy_mel2_shape toy_db2_shape toy_resize_shape toy_permutation_spec
           ten_file_corpus).
  apply Nat.leb_le. vm_compute. reflexivity.
Defined.

End Scenario.
